(** * Betamax: the record/replay decision engine of the proxy

    A shallow embedding of [proxy/proxy.go] (matcher, episode lookup,
    pipeline stages) and of the cassette store of package [proxy]
    ([Config], [Save], [Load], [Reset] and the text/binary body policy),
    followed by the properties established about them.

    Conventions.
    - A Go [string] is a sequence of bytes: Rocq's [string].  The bytes of
      a [[]byte] are a [list byte]; the conversions [string(b)] and
      [[]byte(s)] are [string_of_list_byte] and [list_byte_of_string].  A
      body kept in an episode is a [slice], which is the nil slice or holds
      bytes: [encoding/json] writes the two differently.
    - [http.Header], [url.Values] and [map[string][]string] are finite maps
      from strings to lists of strings; indexing a missing key gives the
      empty list, as in Go ([index]).
    - Go ranges over a map in an unspecified order; the loops over maps are
      written over [map_to_list], and every statement made about them is
      independent of that order.
    - For the other slices and for maps, nil and empty are not told apart:
      the program ranges over them, takes their length or indexes them,
      which does not tell them apart either, with two exceptions that are
      noted where they arise ([IsText] and the answer of the control GET).
    - Fields keep their Go names where the name is free; the fields of the
      recorded request and response are prefixed ([rr_], [rs_]), as are those
      of their writeable forms ([wq_], [ws_]), and the live request has
      [Url], [ReqHeader] and [ReqHost] for [URL], [Header] and [Host].
    - A panic is an explicit outcome ([result]).
    - The standard library of Go is not part of the program: [encoding/base64],
      the string handling of [encoding/json] and the file system are modelled
      in their own modules, from their documentation. *)

From Stdlib Require Import Strings.Byte Strings.String Strings.Ascii.
From Stdlib Require Import NArith ZArith.
From stdpp Require Import base option list strings gmap fin_maps.

Local Open Scope string_scope.
Local Open Scope list_scope.

(** ** Data model *)

#[global] Instance byte_eq_dec : EqDecision byte := Byte.byte_eq_dec.

(** [map[string][]string], the type under [http.Header] and [url.Values]. *)
Abbreviation Header := (gmap string (list string)).
Abbreviation Values := (gmap string (list string)).

(** [m[key]]: the values under [key], the nil slice when the key is absent. *)
Definition index (m : gmap string (list string)) (key : string) : list string :=
  default [] (m !! key).

(** A [[]byte] kept in a struct field.  Go tells the nil slice from an empty
    one; both have no byte. *)
Inductive slice : Type :=
  | Nil
  | Slice (p : list byte).

(** The bytes of a slice: what [bytes.Compare], [string(b)] and [Write] see. *)
Definition contents (b : slice) : list byte :=
  match b with
  | Nil => []
  | Slice p => p
  end.

(** [url.Userinfo]: none of its fields is exported. *)
Record Userinfo : Type := mkUserinfo {
  username    : string;
  password    : string;
  passwordSet : bool;
}.

(** [url.URL]: its fields, in the order of their declaration.  [User] is a
    pointer, [None] when nil. *)
Record URL : Type := mkURL {
  Scheme      : string;
  Opaque      : string;
  User        : option Userinfo;
  Host        : string;
  Path        : string;
  RawPath     : string;
  OmitHost    : bool;
  ForceQuery  : bool;
  RawQuery    : string;
  Fragment    : string;
  RawFragment : string;
}.

(** Modelled from the spec: the declarations of [RecordedRequest],
    [RecordedResponse] and [Episode] are not in the sources at hand.  A
    recorded request has the fields that [recordRequest] sets, which are the
    ones of the spec's data model: method, target, header multimap, parsed
    form fields and raw body bytes. *)
Record RecordedRequest : Type := mkRecordedRequest {
  rr_URL    : URL;
  rr_Header : Header;
  rr_Method : string;
  rr_Body   : slice;
  rr_Form   : Values;
}.

(** Modelled from the spec: a recorded response has the fields that
    [serveEpisode] and [writeableEpisodes] read: status code, header multimap
    and raw body bytes. *)
Record RecordedResponse : Type := mkRecordedResponse {
  rs_StatusCode : Z;
  rs_Header     : Header;
  rs_Body       : slice;
}.

(** Modelled from the spec: one recorded request/response pair. *)
Record Episode : Type := mkEpisode {
  Request  : RecordedRequest;
  Response : RecordedResponse;
}.

(** What [json.Decoder.Decode] finds in a body for a [*Config]: for each
    exported field, the value the JSON object supplies under the name of that
    field, if it supplies one of the right type. *)
Record ConfigFields : Type := mkConfigFields {
  f_TargetHost               : option string;
  f_CassetteDir              : option string;
  f_Episodes                 : option (list Episode);
  f_cassette                 : option string;
  f_record_new_episodes      : option bool;
  f_deny_unrecorded_requests : option bool;
  f_rewrite_host_header      : option bool;
  f_match_headers            : option (list string);
}.

(** The live [*http.Request], with the fields the pipeline touches.  [Body]
    is the whole body, which [peekBytes] buffers and puts back.  Two views of
    the body come from the standard library and are carried with the request:
    [Form] is what [ParseMultipartForm] leaves in [req.Form] (the query
    parameters, and the body fields when the content type announces a form);
    [JsonBody] is what [json.Decoder] reads from the body. *)
Record HttpRequest : Type := mkHttpRequest {
  Method     : string;
  Url        : URL;
  ReqHeader  : Header;
  ReqHost    : string;
  RequestURI : string;
  Body       : list byte;
  Form       : Values;
  JsonBody   : ConfigFields;
}.

Record Config : Type := mkConfig {
  TargetHost             : string;
  CassetteDir            : string;
  Episodes               : list Episode;
  Cassette               : string;
  RecordNewEpisodes      : bool;
  DenyUnrecordedRequests : bool;
  RewriteHostHeader      : bool;
  MatchHeaders           : list string;
}.

Definition set_Episodes (c : Config) (es : list Episode) : Config :=
  mkConfig (TargetHost c) (CassetteDir c) es (Cassette c)
           (RecordNewEpisodes c) (DenyUnrecordedRequests c)
           (RewriteHostHeader c) (MatchHeaders c).

(** ** The matcher *)

(** [peekBytes]: all the bytes of the body; the request keeps them.  What
    [ioutil.ReadAll] returns is never the nil slice. *)
Definition peekBytes (req : HttpRequest) : list byte := Body req.

(** [peekForm]: the parsed form; the body is put back before and after. *)
Definition peekForm (req : HttpRequest) : Values := Form req.

Definition sameURL (a b : URL) : bool :=
  bool_decide (Path a = Path b)
  && bool_decide (RawQuery a = RawQuery b)
  && bool_decide (Fragment a = Fragment b).

(** The body of [for i, _ := range newRequest[header]] in [sameHeaders], run
    over the indices [idx]: the length test sits inside the loop. *)
Fixpoint sameHeaders_values (newv recv : list string) (idx : list nat) : bool :=
  match idx with
  | [] => true
  | i :: rest =>
      if negb (bool_decide (length newv = length recv)) then false
      else if negb (bool_decide (newv !! i = recv !! i)) then false
      else sameHeaders_values newv recv rest
  end.

(** The loop over [config.MatchHeaders]. *)
Fixpoint sameHeaders_loop (recorded newRequest : Header) (hs : list string) : bool :=
  match hs with
  | [] => true
  | header :: rest =>
      let newv := index newRequest header in
      if sameHeaders_values newv (index recorded header) (seq 0 (length newv))
      then sameHeaders_loop recorded newRequest rest
      else false
  end.

Definition sameHeaders (recorded newRequest : Header) (config : Config) : bool :=
  sameHeaders_loop recorded newRequest (MatchHeaders config).

(** [for i, _ := range form[key]] in [sameRequest]. *)
Fixpoint sameForm_values (recv newv : list string) (idx : list nat) : bool :=
  match idx with
  | [] => true
  | i :: rest =>
      if negb (bool_decide (recv !! i = newv !! i)) then false
      else sameForm_values recv newv rest
  end.

(** [for key, _ := range form] in [sameRequest], over the keys [keys]. *)
Fixpoint sameForm_loop (aForm form : Values) (keys : list string) : bool :=
  match keys with
  | [] => true
  | key :: rest =>
      if negb (bool_decide (length (index aForm key) = length (index form key)))
      then false
      else if sameForm_values (index aForm key) (index form key)
                              (seq 0 (length (index form key)))
      then sameForm_loop aForm form rest
      else false
  end.

Definition sameRequest (a : RecordedRequest) (b : HttpRequest) (config : Config) : bool :=
  if negb (bool_decide (rr_Method a = Method b)) then false
  else if negb (sameURL (rr_URL a) (Url b)) then false
  else if negb (sameHeaders (rr_Header a) (ReqHeader b) config) then false
  else
    let form := peekForm b in
    if negb (sameForm_loop (rr_Form a) form (map_to_list form).*1) then false
    else if bool_decide (size form = 0) then
      if negb (bool_decide (contents (rr_Body a) = peekBytes b)) then false else true
    else true.

(** [findEpisode]: the first episode of [config.Episodes] whose request is the
    same as [req]; [None] is the nil pointer. *)
Fixpoint findEpisode_loop (req : HttpRequest) (config : Config)
         (es : list Episode) : option Episode :=
  match es with
  | [] => None
  | episode :: rest =>
      if sameRequest (Request episode) req config then Some episode
      else findEpisode_loop req config rest
  end.

Definition findEpisode (req : HttpRequest) (config : Config) : option Episode :=
  findEpisode_loop req config (Episodes config).

(** ** Panics *)

(** The outcome of code that may panic. *)
Inductive result (A : Type) : Type :=
  | Ok (a : A)
  | Panic (msg : string).
Arguments Ok {A} a.
Arguments Panic {A} msg.

#[global] Instance result_ret : MRet result := λ A a, Ok a.

#[global] Instance result_bind : MBind result := λ A B f r,
  match r with
  | Ok a => f a
  | Panic msg => Panic msg
  end.

(** Run [f] over a slice from left to right; the first panic ends the loop. *)
Fixpoint rmap {A B : Type} (f : A → result B) (l : list A) : result (list B) :=
  match l with
  | [] => Ok []
  | a :: rest => b ← f a; bs ← rmap f rest; Ok (b :: bs)
  end.

(** ** [encoding/base64], [StdEncoding] *)

Module Base64.

(** Six bits, most significant first. *)
Definition sextet : Type := bool * bool * bool * bool * bool * bool.

Definition alphabet : string :=
  "ABCDEFGHIJKLMNOPQRSTUVWXYZabcdefghijklmnopqrstuvwxyz0123456789+/".

Definition padChar : ascii := "="%char.

Definition bit (b : bool) : nat := if b then 1 else 0.

Definition sextet_value (s : sextet) : nat :=
  let '(b5, b4, b3, b2, b1, b0) := s in
  32 * bit b5 + 16 * bit b4 + 8 * bit b3 + 4 * bit b2 + 2 * bit b1 + bit b0.

Definition sextet_of_value (n : nat) : sextet :=
  (Nat.testbit n 5, Nat.testbit n 4, Nat.testbit n 3,
   Nat.testbit n 2, Nat.testbit n 1, Nat.testbit n 0).

(** [enc.encode[v]] *)
Definition encode_char (s : sextet) : ascii :=
  default padChar (String.get (sextet_value s) alphabet).

Fixpoint position (c : ascii) (s : string) : option nat :=
  match s with
  | EmptyString => None
  | String c' s' => if bool_decide (c = c') then Some 0 else S <$> position c s'
  end.

(** [enc.decodeMap[c]], [None] for the bytes outside the alphabet. *)
Definition decode_char (c : ascii) : option sextet :=
  sextet_of_value <$> position c alphabet.

(** The eight bits of a byte, most significant first. *)
Definition bits (x : byte) : bool * bool * bool * bool * bool * bool * bool * bool :=
  let '(b0, (b1, (b2, (b3, (b4, (b5, (b6, b7))))))) := Byte.to_bits x in
  (b7, b6, b5, b4, b3, b2, b1, b0).

Definition of_bits (b7 b6 b5 b4 b3 b2 b1 b0 : bool) : byte :=
  Byte.of_bits (b0, (b1, (b2, (b3, (b4, (b5, (b6, b7))))))).

(** [EncodeToString]: three bytes make four characters; a last group of
    one or two bytes is padded with [=]. *)
Fixpoint encode (src : list byte) : list ascii :=
  match src with
  | [] => []
  | [x] =>
      let '(x7, x6, x5, x4, x3, x2, x1, x0) := bits x in
      [encode_char (x7, x6, x5, x4, x3, x2);
       encode_char (x1, x0, false, false, false, false);
       padChar; padChar]
  | [x; y] =>
      let '(x7, x6, x5, x4, x3, x2, x1, x0) := bits x in
      let '(y7, y6, y5, y4, y3, y2, y1, y0) := bits y in
      [encode_char (x7, x6, x5, x4, x3, x2);
       encode_char (x1, x0, y7, y6, y5, y4);
       encode_char (y3, y2, y1, y0, false, false);
       padChar]
  | x :: y :: z :: rest =>
      let '(x7, x6, x5, x4, x3, x2, x1, x0) := bits x in
      let '(y7, y6, y5, y4, y3, y2, y1, y0) := bits y in
      let '(z7, z6, z5, z4, z3, z2, z1, z0) := bits z in
      encode_char (x7, x6, x5, x4, x3, x2)
      :: encode_char (x1, x0, y7, y6, y5, y4)
      :: encode_char (y3, y2, y1, y0, z7, z6)
      :: encode_char (z5, z4, z3, z2, z1, z0)
      :: encode rest
  end.

Definition EncodeToString (src : list byte) : string :=
  string_of_list_ascii (encode src).

Definition byte1 (s0 s1 : sextet) : byte :=
  let '(a5, a4, a3, a2, a1, a0) := s0 in
  let '(b5, b4, _, _, _, _) := s1 in
  of_bits a5 a4 a3 a2 a1 a0 b5 b4.

Definition byte2 (s1 s2 : sextet) : byte :=
  let '(_, _, b3, b2, b1, b0) := s1 in
  let '(c5, c4, c3, c2, _, _) := s2 in
  of_bits b3 b2 b1 b0 c5 c4 c3 c2.

Definition byte3 (s2 s3 : sextet) : byte :=
  let '(_, _, _, _, c1, c0) := s2 in
  let '(d5, d4, d3, d2, d1, d0) := s3 in
  of_bits c1 c0 d5 d4 d3 d2 d1 d0.

(** The quanta of four characters, once line breaks are dropped.  The
    result is the bytes decoded before the first corrupt quantum, and
    whether the whole input was well formed. *)
Fixpoint decode (src : list ascii) : list byte * bool :=
  match src with
  | [] => ([], true)
  | c0 :: c1 :: c2 :: c3 :: rest =>
      match decode_char c0, decode_char c1 with
      | Some s0, Some s1 =>
          if bool_decide (c2 = padChar) then
            if bool_decide (c3 = padChar)
            then ([byte1 s0 s1], bool_decide (rest = []))
            else ([], false)
          else
            match decode_char c2 with
            | Some s2 =>
                if bool_decide (c3 = padChar)
                then ([byte1 s0 s1; byte2 s1 s2], bool_decide (rest = []))
                else
                  match decode_char c3 with
                  | Some s3 =>
                      let '(out, ok) := decode rest in
                      (byte1 s0 s1 :: byte2 s1 s2 :: byte3 s2 s3 :: out, ok)
                  | None => ([], false)
                  end
            | None => ([], false)
            end
      | _, _ => ([], false)
      end
  | _ => ([], false)
  end.

Definition is_newline (c : ascii) : bool :=
  bool_decide (c = "010"%char) || bool_decide (c = "013"%char).

(** [DecodeString]: [\r] and [\n] are ignored. *)
Definition DecodeString (s : string) : list byte * bool :=
  decode (List.filter (λ c, negb (is_newline c)) (list_ascii_of_string s)).

End Base64.

(** ** [encoding/json] *)

Module JSON.

Definition between (lo hi : N) (b : byte) : bool :=
  ((lo <=? Byte.to_N b) && (Byte.to_N b <=? hi))%N.

(** A continuation byte. *)
Definition cont (b : byte) : bool := between 0x80 0xBF b.

(** U+FFFD, the replacement rune. *)
Definition replacement : list byte := [xef; xbf; xbd].

(** What a string becomes when it is written as a JSON string and read
    back: the encoder coerces it to valid UTF-8, each byte that does not
    start a well-formed sequence becoming U+FFFD; escapes are undone by the
    decoder. *)
Fixpoint coerce (s : list byte) : list byte :=
  match s with
  | [] => []
  | b0 :: t =>
      if between 0x00 0x7F b0 then b0 :: coerce t
      else if between 0xC2 0xDF b0 then
        match t with
        | b1 :: t1 =>
            if cont b1 then b0 :: b1 :: coerce t1
            else replacement ++ coerce t
        | _ => replacement ++ coerce t
        end
      else if between 0xE0 0xEF b0 then
        match t with
        | b1 :: b2 :: t2 =>
            if (if between 0xE0 0xE0 b0 then between 0xA0 0xBF b1
                else if between 0xED 0xED b0 then between 0x80 0x9F b1
                else cont b1) && cont b2
            then b0 :: b1 :: b2 :: coerce t2
            else replacement ++ coerce t
        | _ => replacement ++ coerce t
        end
      else if between 0xF0 0xF4 b0 then
        match t with
        | b1 :: b2 :: b3 :: t3 =>
            if (if between 0xF0 0xF0 b0 then between 0x90 0xBF b1
                else if between 0xF4 0xF4 b0 then between 0x80 0x8F b1
                else cont b1) && cont b2 && cont b3
            then b0 :: b1 :: b2 :: b3 :: coerce t3
            else replacement ++ coerce t
        | _ => replacement ++ coerce t
        end
      else replacement ++ coerce t
  end.

Definition json_string (s : string) : string :=
  string_of_list_byte (coerce (list_byte_of_string s)).

(** A [map[string][]string] written as an object of arrays and read back. *)
Definition json_map (m : gmap string (list string)) : gmap string (list string) :=
  list_to_map ((λ kv, (json_string kv.1, json_string <$> kv.2)) <$> map_to_list m).

(** The strings that JSON carries unchanged. *)
Definition clean (s : string) : bool := bool_decide (json_string s = s).

Definition clean_map (m : gmap string (list string)) : bool :=
  forallb (λ kv, clean kv.1 && forallb clean kv.2) (map_to_list m).

(** A JSON document. *)
Inductive json : Type :=
  | JNull
  | JBool (b : bool)
  | JNumber (z : Z)
  | JString (s : string)
  | JArray (items : list json)
  | JObject (fields : list (string * json)).

Definition jstring (s : string) : json := JString (json_string s).

Definition jstrings (l : list string) : json := JArray (jstring <$> l).

(** An object of arrays, the keys in the order of [map_to_list]. *)
Definition jmap (m : gmap string (list string)) : json :=
  JObject ((λ kv, (json_string kv.1, jstrings kv.2)) <$> map_to_list m).

(** The value of a field of an object. *)
Fixpoint field (name : string) (fields : list (string * json)) : option json :=
  match fields with
  | [] => None
  | (k, v) :: rest => if bool_decide (k = name) then Some v else field name rest
  end.

End JSON.

(** ** The cassette store *)

(** A body in a [WriteableRecordedRequest] or [WriteableRecordedResponse]:
    the dynamic value of the [interface{}] field.  [writableBodyForContentType]
    gives a string or a byte slice, which may be the nil slice; decoding a
    cassette file gives a string for a JSON string, [INil] for [null] and
    [IOther] for a number, a boolean, an array or an object, with the name
    of its Go type ([float64], [bool], [[]interface {}],
    [map[string]interface {}]). *)
Inductive iface : Type :=
  | IString (s : string)
  | IBytes (b : slice)
  | INil
  | IOther (dynamic : string).

Record WriteableRecordedRequest : Type := mkWriteableRecordedRequest {
  wq_Method : string;
  wq_URL    : URL;
  wq_Header : Header;
  wq_Body   : iface;
  wq_Form   : Values;
}.

Record WriteableRecordedResponse : Type := mkWriteableRecordedResponse {
  ws_StatusCode : Z;
  ws_Body       : iface;
  ws_Header     : Header;
}.

Record WriteableEpisode : Type := mkWriteableEpisode {
  w_Request  : WriteableRecordedRequest;
  w_Response : WriteableRecordedResponse;
}.

(** [strings.Contains], for the unanchored alternative of the pattern. *)
Fixpoint contains (sub s : string) : bool :=
  String.prefix sub s ||
  match s with
  | EmptyString => false
  | String _ s' => contains sub s'
  end.

(** [regexp.Match("^(text/)|(json)", ...)]: the value begins with [text/] or
    has [json] somewhere. *)
Definition matches_text (contentType : string) : bool :=
  String.prefix "text/" contentType || contains "json" contentType.

(** [IsText].  A key that is present with no value is taken for the empty,
    non-nil slice, on which [contentType[0]] panics; Go returns [false]
    when the slice under the key is nil, as [null] in a cassette file makes
    it. *)
Definition IsText (headers : Header) : result bool :=
  match headers !! "Content-Type" with
  | None => Ok false
  | Some [] => Panic "runtime error: index out of range [0] with length 0"
  | Some (first :: _) => Ok (matches_text first)
  end.

Definition writableBodyForContentType (body : slice) (headers : Header)
  : result iface :=
  text ← IsText headers;
  if (text : bool) then Ok (IString (string_of_list_byte (contents body)))
  else Ok (IBytes body).

(** [body.(string)]: the assertion panics on any other dynamic type, with
    the error of the runtime. *)
Definition assert_string (body : iface) : result string :=
  match body with
  | IString s => Ok s
  | IBytes _ => Panic "interface conversion: interface {} is []uint8, not string"
  | INil => Panic "interface conversion: interface {} is nil, not string"
  | IOther dynamic =>
      Panic ("interface conversion: interface {} is " +:+ dynamic +:+ ", not string")
  end.

(** [bodyForContentType].  The conversion [[]byte(s)] and the slice that
    [DecodeString] returns are never nil. *)
Definition bodyForContentType (body : iface) (headers : Header)
  : result slice :=
  text ← IsText headers;
  if (text : bool) then s ← assert_string body; Ok (Slice (list_byte_of_string s))
  else s ← assert_string body; Ok (Slice (Base64.DecodeString s).1).

Definition writeableEpisode (episode : Episode) : result WriteableEpisode :=
  let rq := Request episode in
  let rs := Response episode in
  qbody ← writableBodyForContentType (rr_Body rq) (rr_Header rq);
  sbody ← writableBodyForContentType (rs_Body rs) (rs_Header rs);
  Ok (mkWriteableEpisode
        (mkWriteableRecordedRequest (rr_Method rq) (rr_URL rq) (rr_Header rq)
                                    qbody (rr_Form rq))
        (mkWriteableRecordedResponse (rs_StatusCode rs) sbody (rs_Header rs))).

Definition writeableEpisodes (episodes : list Episode)
  : result (list WriteableEpisode) :=
  rmap writeableEpisode episodes.

Definition episode (w : WriteableEpisode) : result Episode :=
  let wq := w_Request w in
  let ws := w_Response w in
  qbody ← bodyForContentType (wq_Body wq) (wq_Header wq);
  sbody ← bodyForContentType (ws_Body ws) (ws_Header ws);
  Ok (mkEpisode
        (mkRecordedRequest (wq_URL wq) (wq_Header wq) (wq_Method wq)
                           qbody (wq_Form wq))
        (mkRecordedResponse (ws_StatusCode ws) (ws_Header ws) sbody)).

Definition episodes (writeableEpisodes : list WriteableEpisode)
  : result (list Episode) :=
  rmap episode writeableEpisodes.

(** *** Cassette files *)

Module Store.

(** A cassette file is taken for what [json.Unmarshal] makes of its bytes
    when the target is a [[]WriteableEpisode]: the slice it fills, and the
    error it returns.  A syntax error leaves the slice empty; a value of the
    wrong type for its field is skipped, decoding goes on, and the error is
    returned with what was decoded. *)
Record data : Type := mkData {
  decoded    : list WriteableEpisode;
  decode_err : option string;
}.

Import JSON.

(** A [Userinfo] has no exported field: it is written as the empty object,
    and read back as a [Userinfo] with nothing in it. *)
Definition json_user (u : option Userinfo) : option Userinfo :=
  match u with
  | None => None
  | Some _ => Some (mkUserinfo "" "" false)
  end.

Definition json_url (u : URL) : URL :=
  mkURL (json_string (Scheme u)) (json_string (Opaque u)) (json_user (User u))
        (json_string (Host u)) (json_string (Path u)) (json_string (RawPath u))
        (OmitHost u) (ForceQuery u) (json_string (RawQuery u))
        (json_string (Fragment u)) (json_string (RawFragment u)).

(** A body as it is read back: a string is a JSON string; a byte slice is
    written in base64 and read back as that string; the nil byte slice is
    written as [null] and read back as the nil interface value. *)
Definition json_body (b : iface) : iface :=
  match b with
  | IString s => IString (json_string s)
  | IBytes (Slice p) => IString (Base64.EncodeToString p)
  | IBytes Nil => INil
  | INil => INil
  | IOther dynamic => IOther dynamic
  end.

Definition json_episode (w : WriteableEpisode) : WriteableEpisode :=
  let wq := w_Request w in
  let ws := w_Response w in
  mkWriteableEpisode
    (mkWriteableRecordedRequest (json_string (wq_Method wq)) (json_url (wq_URL wq))
       (json_map (wq_Header wq)) (json_body (wq_Body wq)) (json_map (wq_Form wq)))
    (mkWriteableRecordedResponse (ws_StatusCode ws) (json_body (ws_Body ws))
       (json_map (ws_Header ws))).

(** [json.MarshalIndent(&episodes, "", "  ")]: the file whose decoding is
    the written episodes as JSON carries them. *)
Definition MarshalIndent (ws : list WriteableEpisode) : data :=
  mkData (json_episode <$> ws) None.

(** [json.Unmarshal(cassetteData, &writableEpisodes)] *)
Definition Unmarshal (d : data) : list WriteableEpisode * option string :=
  (decoded d, decode_err d).

(** A directory entry: a file that can be read, or one that exists and
    whose reading fails. *)
Inductive file : Type :=
  | Readable (d : data)
  | Unreadable (err : string).

(** The file system, as far as the program observes it: the files by
    path, and what the environment does to an attempt to change a path.
    [write_error] gives the paths that cannot be written or removed, with
    the error.  [torn] gives what a write that fails leaves at the path:
    a file, when the write fails after the file was created or truncated,
    and nothing new when it fails before.  Directories are not kept: the
    program reads none, and a directory that is missing or cannot be made
    shows as the error of the write below it.  A path is a key of [files]
    as [path.Join] cleans it, and two cleaned paths are taken for two
    files: this is so in a directory tree without links, for paths that
    are relative to one working directory and stay below it. *)
Record FS : Type := mkFS {
  files       : gmap string file;
  write_error : string → option string;
  torn        : string → option file;
}.

(** [os.Stat] followed by [os.IsNotExist]. *)
Definition IsNotExist (fs : FS) (path : string) : bool :=
  bool_decide (files fs !! path = None).

Definition ReadFile (fs : FS) (path : string) : data + string :=
  match files fs !! path with
  | Some (Readable d) => inl d
  | Some (Unreadable err) => inr err
  | None => inr "no such file or directory"
  end.

(** [ioutil.WriteFile]: the file holds the data when the write succeeds;
    when it fails, the path is as it was or holds what the failed write
    left. *)
Definition WriteFile (fs : FS) (path : string) (d : data) : FS * option string :=
  match write_error fs path with
  | Some err =>
      (match torn fs path with
       | Some f => mkFS (<[path := f]> (files fs)) (write_error fs) (torn fs)
       | None => fs
       end, Some err)
  | None =>
      (mkFS (<[path := Readable d]> (files fs)) (write_error fs) (torn fs), None)
  end.

(** [os.Remove]: the file is gone when the removal succeeds, and stays
    when it fails. *)
Definition Remove (fs : FS) (path : string) : FS * option string :=
  match write_error fs path with
  | Some err => (fs, Some err)
  | None => (mkFS (delete path (files fs)) (write_error fs) (torn fs), None)
  end.

(** *** Paths *)

(** The elements of a path: the pieces between its slashes. *)
Fixpoint elements (path : string) : list string :=
  match path with
  | EmptyString => [EmptyString]
  | String c rest =>
      if bool_decide (c = "/"%char) then EmptyString :: elements rest
      else match elements rest with
           | [] => [String c EmptyString]
           | e :: es => String c e :: es
           end
  end.

(** The loop of [path.Clean], element by element.  [out] holds the elements
    written so far, the last one first; [dotdot] is the number of elements
    of [out] that a [..] cannot take back, which are the [..] elements a
    path that is not rooted starts with.  Empty elements and [.] are
    dropped; [..] takes back the last element when there is one to take
    back, is dropped at the root, and is written otherwise. *)
Fixpoint clean_loop (rooted : bool) (out : list string) (dotdot : nat)
         (es : list string) : list string :=
  match es with
  | [] => reverse out
  | e :: rest =>
      if bool_decide (e = "") || bool_decide (e = ".")
      then clean_loop rooted out dotdot rest
      else if bool_decide (e = "..") then
        if bool_decide (dotdot < length out)
        then clean_loop rooted (tail out) dotdot rest
        else if rooted then clean_loop rooted out dotdot rest
        else clean_loop rooted (e :: out) (S (length out)) rest
      else clean_loop rooted (e :: out) dotdot rest
  end.

(** The elements with a slash between them. *)
Fixpoint join_elements (es : list string) : string :=
  match es with
  | [] => ""
  | [e] => e
  | e :: rest => e +:+ "/" +:+ join_elements rest
  end.

(** [path.Clean]: the shortest path that names the same file by lexical
    processing alone. *)
Definition path_Clean (path : string) : string :=
  match path with
  | EmptyString => "."
  | String c _ =>
      let rooted := bool_decide (c = "/"%char) in
      let out := join_elements (clean_loop rooted [] 0 (elements path)) in
      if rooted then "/" +:+ out
      else if bool_decide (out = "") then "." else out
  end.

(** [path.Join(dir, name)]: the elements that are not empty, a slash
    between them, cleaned; the empty string when both are empty. *)
Definition Join (dir name : string) : string :=
  if bool_decide (dir = "") then
    if bool_decide (name = "") then "" else path_Clean name
  else path_Clean (dir +:+ "/" +:+ name).

End Store.

Definition CassetteFile (c : Config) : string :=
  Store.Join (CassetteDir c) (Cassette c +:+ ".json").

(** [Config.Save].  [MarshalIndent] has no error for these types.  The
    result of [os.MkdirAll] is dropped, and what it did shows in the result of
    [WriteFile]. *)
Definition Save (c : Config) (fs : Store.FS) : result (Store.FS * option string) :=
  episodes ← writeableEpisodes (Episodes c);
  let jsonData := Store.MarshalIndent episodes in
  Ok (Store.WriteFile fs (CassetteFile c) jsonData).

(** [Config.Load]: the configuration after the call and the error returned. *)
Definition Load (c : Config) (fs : Store.FS) : result (Config * option string) :=
  if bool_decide (Cassette c = "") then
    Ok (mkConfig (TargetHost c) (CassetteDir c) [] (Cassette c)
                 true false true (MatchHeaders c), None)
  else
    let file := CassetteFile c in
    if Store.IsNotExist fs file then Ok (set_Episodes c [], None)
    else
      match Store.ReadFile fs file with
      | inr err => Ok (set_Episodes c [], Some err)
      | inl cassetteData =>
          let '(writableEpisodes, err) := Store.Unmarshal cassetteData in
          es ← episodes writableEpisodes;
          Ok (set_Episodes c es, err)
      end.

(** [Config.Reset] *)
Definition Reset (c : Config) (fs : Store.FS) : Config * Store.FS * option string :=
  if bool_decide (Cassette c = "") then (c, fs, Some "Cassete is not inserted")
  else
    let file := CassetteFile c in
    let c' := set_Episodes c [] in
    if Store.IsNotExist fs file then (c', fs, None)
    else let '(fs', err) := Store.Remove fs file in (c', fs', err).

(** ** The control endpoint's view of the configuration *)

Module ConfigJSON.
Import JSON.

Definition user_json (u : option Userinfo) : json :=
  match u with
  | None => JNull
  | Some _ => JObject []
  end.

Definition url_json (u : URL) : json :=
  JObject [("Scheme", jstring (Scheme u)); ("Opaque", jstring (Opaque u));
           ("User", user_json (User u)); ("Host", jstring (Host u));
           ("Path", jstring (Path u)); ("RawPath", jstring (RawPath u));
           ("OmitHost", JBool (OmitHost u)); ("ForceQuery", JBool (ForceQuery u));
           ("RawQuery", jstring (RawQuery u)); ("Fragment", jstring (Fragment u));
           ("RawFragment", jstring (RawFragment u))].

(** A [[]byte] field is written in base64, and the nil slice as [null]. *)
Definition bytes_json (b : slice) : json :=
  match b with
  | Nil => JNull
  | Slice p => JString (Base64.EncodeToString p)
  end.

(** Modelled from the spec: the declarations of [Episode], [RecordedRequest]
    and [RecordedResponse] are not in the sources at hand; their fields are
    the ones [recordRequest], [serveEpisode] and [writeableEpisodes] use,
    written under their own names. *)
Definition episode_json (e : Episode) : json :=
  let rq := Request e in
  let rs := Response e in
  JObject
    [("Request", JObject [("URL", url_json (rr_URL rq)); ("Header", jmap (rr_Header rq));
                          ("Method", jstring (rr_Method rq)); ("Body", bytes_json (rr_Body rq));
                          ("Form", jmap (rr_Form rq))]);
     ("Response", JObject [("StatusCode", JNumber (rs_StatusCode rs));
                           ("Header", jmap (rs_Header rs));
                           ("Body", bytes_json (rs_Body rs))])].

(** [json.Encode(config)]: every exported field of [Config], under its tag
    when it has one and under its own name otherwise.  A list with no item
    is written as the empty array; Go writes [null] when that slice is
    nil. *)
Definition config_json (c : Config) : json :=
  JObject
    [("TargetHost", jstring (TargetHost c));
     ("CassetteDir", jstring (CassetteDir c));
     ("Episodes", JArray (episode_json <$> Episodes c));
     ("cassette", jstring (Cassette c));
     ("record_new_episodes", JBool (RecordNewEpisodes c));
     ("deny_unrecorded_requests", JBool (DenyUnrecordedRequests c));
     ("rewrite_host_header", JBool (RewriteHostHeader c));
     ("match_headers", jstrings (MatchHeaders c))].

(** [json.Decode(config)]: the fields found replace the current ones, the
    others are left alone. *)
Definition Decode (f : ConfigFields) (c : Config) : Config :=
  mkConfig (default (TargetHost c) (f_TargetHost f))
           (default (CassetteDir c) (f_CassetteDir f))
           (default (Episodes c) (f_Episodes f))
           (default (Cassette c) (f_cassette f))
           (default (RecordNewEpisodes c) (f_record_new_episodes f))
           (default (DenyUnrecordedRequests c) (f_deny_unrecorded_requests f))
           (default (RewriteHostHeader c) (f_rewrite_host_header f))
           (default (MatchHeaders c) (f_match_headers f)).

End ConfigJSON.

(** ** The pipeline *)

(** A call on the [http.ResponseWriter] of a request. *)
Inductive rw_call : Type :=
  | HeaderAdd (k v : string)          (* resp.Header().Add(k, v) *)
  | WriteHeader (code : Z)            (* resp.WriteHeader(code) *)
  | Write (p : list byte)             (* resp.Write(p) *)
  | Encode (v : JSON.json)            (* json.NewEncoder(resp).Encode(v) *)
  | Error (msg : string) (code : Z).  (* http.Error(resp, msg, code) *)

(** The forwarding primitive: the response it obtains for a request.  An
    upstream that cannot be reached is the error response of the reverse
    proxy.  The reverse proxy sends a copy of the request and leaves the
    request it is given as it was. *)
Definition Forward : Type := HttpRequest → RecordedResponse.

(** What handling one request does: the calls on the response writer, the
    requests handed to the forwarding primitive, the configuration and the
    file system afterwards, and the panic that is unwinding, if any. *)
Record Outcome : Type := mkOutcome {
  calls     : list rw_call;
  forwarded : list HttpRequest;
  config'   : Config;
  fs'       : Store.FS;
  panicked  : option string;
}.

(** The two loops of [serveEpisode]: one [Add] per value of each header. *)
Definition addHeaders (h : Header) : list rw_call :=
  flat_map (λ kv, HeaderAdd kv.1 <$> kv.2) (map_to_list h).

Definition serveEpisode (episode : Episode) : list rw_call :=
  addHeaders (rs_Header (Response episode))
  ++ [WriteHeader (rs_StatusCode (Response episode));
      Write (contents (rs_Body (Response episode)))].

(** Modelled from the spec: the reverse proxy and [ProxyResponseWriter] are
    not in the sources at hand.  The forwarding primitive emits the headers,
    the status and the body of the response on the writer it is given;
    [ProxyResponseWriter] relays them and keeps them as its [Response]. *)
Definition ServeHTTP (proxy : Forward) (req : HttpRequest) : list rw_call :=
  let r := proxy req in
  addHeaders (rs_Header r)
  ++ [WriteHeader (rs_StatusCode r); Write (contents (rs_Body r))].

Definition recordRequest (req : HttpRequest) : RecordedRequest :=
  let body := peekBytes req in
  let form := peekForm req in
  mkRecordedRequest (Url req) (ReqHeader req) (Method req) (Slice body) form.

(** [writeEpisode]: the episode is appended, then the cassette is saved and
    the result of [Save] is dropped. *)
Definition writeEpisode (episode : Episode) (config : Config) (fs : Store.FS)
  : Config * Store.FS * option string :=
  let config := set_Episodes config (Episodes config ++ [episode]) in
  match Save config fs with
  | Ok (fs, _) => (config, fs, None)
  | Panic msg => (config, fs, Some msg)
  end.

Definition serveAndRecord (req : HttpRequest) (handler : Forward)
           (config : Config) (fs : Store.FS) : Outcome :=
  let recordedRequest := recordRequest req in
  let written := ServeHTTP handler req in
  let '(config, fs, p) :=
    writeEpisode (mkEpisode recordedRequest (handler req)) config fs in
  mkOutcome written [req] config fs p.

Definition passthrough (req : HttpRequest) (handler : Forward)
           (config : Config) (fs : Store.FS) : Outcome :=
  mkOutcome (ServeHTTP handler req) [req] config fs None.

(** The line feed that ends the messages. *)
Definition newline : string := String (ascii_of_nat 10) EmptyString.

(** [fmt.Fprintf(resp, "BetaMax: request not recorded, neither requested.\n")] *)
Definition denial : list byte :=
  list_byte_of_string ("BetaMax: request not recorded, neither requested." +:+ newline).

Definition cassetteHandler (handler : Forward) (config : Config) (fs : Store.FS)
           (req : HttpRequest) : Outcome :=
  if bool_decide (Cassette config = "") then passthrough req handler config fs
  else
    match findEpisode req config with
    | Some episode => mkOutcome (serveEpisode episode) [] config fs None
    | None =>
        if RecordNewEpisodes config then serveAndRecord req handler config fs
        else if DenyUnrecordedRequests config then
          mkOutcome [WriteHeader 499; Write denial] [] config fs None
        else passthrough req handler config fs
    end.

Definition set_Host (req : HttpRequest) (host : string) : HttpRequest :=
  mkHttpRequest (Method req) (Url req) (ReqHeader req) host (RequestURI req)
                (Body req) (Form req) (JsonBody req).

Definition rewriteHeaderHandler
           (handler : Config → Store.FS → HttpRequest → Outcome)
           (config : Config) (fs : Store.FS) (req : HttpRequest) : Outcome :=
  handler config fs
          (if RewriteHostHeader config then set_Host req (TargetHost config) else req).

(** [fmt.Errorf("%s for %s %s", err, req.Method, req.RequestURI)] *)
Definition failure (err : string) (req : HttpRequest) : string :=
  err +:+ " for " +:+ Method req +:+ " " +:+ RequestURI req.

Definition not_allowed (req : HttpRequest) : list byte :=
  list_byte_of_string
    ("BetaMax: method " +:+ Method req +:+ " is not allowed." +:+ newline).

Definition handleConfigRequest (req : HttpRequest) (config : Config) (fs : Store.FS)
  : Outcome :=
  if bool_decide (Method req = "GET") then
    mkOutcome [Encode (ConfigJSON.config_json config)] [] config fs None
  else if bool_decide (Method req = "POST") then
    let config := ConfigJSON.Decode (JsonBody req) config in
    match Load config fs with
    | Ok (config, None) => mkOutcome [] [] config fs None
    | Ok (config, Some err) => mkOutcome [] [] config fs (Some (failure err req))
    | Panic msg => mkOutcome [] [] config fs (Some msg)
    end
  else if bool_decide (Method req = "DELETE") then
    match Reset config fs with
    | (config, fs, None) => mkOutcome [] [] config fs None
    | (config, fs, Some err) => mkOutcome [] [] config fs (Some (failure err req))
    end
  else mkOutcome [WriteHeader 405; Write (not_allowed req)] [] config fs None.

Definition configHandler
           (handler : Config → Store.FS → HttpRequest → Outcome)
           (config : Config) (fs : Store.FS) (req : HttpRequest) : Outcome :=
  if bool_decide (Path (Url req) = "/__betamax__/config")
  then handleConfigRequest req config fs
  else handler config fs req.

(** [recoverHandler]: a panic of the inner stages becomes a 500. *)
Definition recoverHandler
           (h : Config → Store.FS → HttpRequest → Outcome)
           (config : Config) (fs : Store.FS) (r : HttpRequest) : Outcome :=
  let o := h config fs r in
  match panicked o with
  | Some err => mkOutcome (calls o ++ [Error err 500]) (forwarded o)
                          (config' o) (fs' o) None
  | None => o
  end.

(** The configuration [Proxy] starts with. *)
Definition initial (cassetteDir targetHost : string) : Config :=
  mkConfig targetHost cassetteDir [] "" true false true [].

(** [Proxy]: the stages around the forwarding primitive [proxy]. *)
Definition Proxy (proxy : Forward) : Config → Store.FS → HttpRequest → Outcome :=
  recoverHandler (configHandler (rewriteHeaderHandler (cassetteHandler proxy))).

(** ** Notions used in the statements *)

(** Episodes that a cassette file carries unchanged: every string of the
    episode is valid UTF-8, so is every body that [IsText] makes a string
    of, no body is the nil slice, and the target has no user name or
    password. *)
Module Clean.
Import JSON.

Definition user (u : option Userinfo) : bool :=
  match u with
  | None => true
  | Some i =>
      bool_decide (username i = "") && bool_decide (password i = "")
      && negb (passwordSet i)
  end.

Definition url (u : URL) : bool :=
  clean (Scheme u) && clean (Opaque u) && user (User u) && clean (Host u)
  && clean (Path u) && clean (RawPath u) && clean (RawQuery u)
  && clean (Fragment u) && clean (RawFragment u).

Definition body (headers : Header) (b : slice) : bool :=
  match b with
  | Nil => false
  | Slice p =>
      match IsText headers with
      | Ok true => bool_decide (coerce p = p)
      | _ => true
      end
  end.

Definition request (r : RecordedRequest) : bool :=
  clean (rr_Method r) && url (rr_URL r) && clean_map (rr_Header r)
  && clean_map (rr_Form r) && body (rr_Header r) (rr_Body r).

Definition response (r : RecordedResponse) : bool :=
  clean_map (rs_Header r) && body (rs_Header r) (rs_Body r).

Definition episode (e : Episode) : bool :=
  request (Request e) && response (Response e).

End Clean.

(** The values passed to [Header().Add] under the key [k], in order. *)
Fixpoint added (k : string) (cs : list rw_call) : list string :=
  match cs with
  | [] => []
  | HeaderAdd k' v :: rest =>
      if bool_decide (k' = k) then v :: added k rest else added k rest
  | _ :: rest => added k rest
  end.

(** The codes passed to [WriteHeader], and the bytes passed to [Write]. *)
Fixpoint statuses (cs : list rw_call) : list Z :=
  match cs with
  | [] => []
  | WriteHeader code :: rest => code :: statuses rest
  | _ :: rest => statuses rest
  end.

Fixpoint written (cs : list rw_call) : list byte :=
  match cs with
  | [] => []
  | Write p :: rest => p ++ written rest
  | _ :: rest => written rest
  end.

(** Two live requests with the same method, the same target, the same values
    for the headers of [MatchHeaders] and the same body. *)
Definition same_exact (config : Config) (r r' : HttpRequest) : Prop :=
  Method r' = Method r ∧
  Path (Url r') = Path (Url r) ∧
  RawQuery (Url r') = RawQuery (Url r) ∧
  Fragment (Url r') = Fragment (Url r) ∧
  (∀ header, header ∈ MatchHeaders config →
     index (ReqHeader r') header = index (ReqHeader r) header) ∧
  Body r' = Body r.

(** A request for the decision stage that finds a cassette in the tray, no
    episode for it, and recording switched on: the request is recorded. *)
Definition recorded_under (config : Config) (r : HttpRequest) : Prop :=
  Path (Url r) ≠ "/__betamax__/config" ∧
  Cassette config ≠ "" ∧
  findEpisode r config = None ∧
  RecordNewEpisodes config = true.

(** The path of the control endpoint. *)
Definition control (r : HttpRequest) : Prop :=
  Path (Url r) = "/__betamax__/config".

(** A request body that supplies no field of the configuration. *)
Definition no_fields : ConfigFields :=
  mkConfigFields None None None None None None None None.

(** The request as the decision stage and the upstream see it, after the
    host-rewrite stage. *)
Definition rewritten (config : Config) (r : HttpRequest) : HttpRequest :=
  if RewriteHostHeader config then set_Host r (TargetHost config) else r.

(** ** Concrete inputs *)

Module Scenario.
Import Store.

Definition text (s : string) : list byte := list_byte_of_string s.

(** The URL of a request line with a path and a query string. *)
Definition target (path query : string) : URL :=
  mkURL "" "" None "" path "" false false query "" "".

(** An upstream that answers, and the reverse proxy with no upstream: a
    status with no header, and no body written. *)
Definition upstream : Forward := λ _,
  mkRecordedResponse 200 {[ "Content-Type" := ["text/plain; charset=utf-8"] ]}
                     (Slice (text "hello")).

Definition unreachable : Forward := λ _, mkRecordedResponse 502 ∅ Nil.

(** Cassette [a] in the tray, nothing recorded, an empty cassette directory. *)
Definition fresh : Config :=
  mkConfig "upstream:80" "cassettes" [] "a" true false true [].

(** Every path can be written and removed. *)
Definition writable : string → option string := λ _, None.

(** A write that fails leaves nothing. *)
Definition untorn : string → option file := λ _, None.

Definition disk : FS := mkFS ∅ writable untorn.

(** The same, the [Accept] header taking part in the matching. *)
Definition fresh_accept : Config :=
  mkConfig "upstream:80" "cassettes" [] "a" true false true ["Accept"].

(** [GET /x?q=...]: the form has the parameter of the query string. *)
Definition get (q agent : string) : HttpRequest :=
  mkHttpRequest "GET" (target "/x" ("q=" +:+ q))
                {[ "Accept" := ["text/html"]; "User-Agent" := [agent] ]}
                "127.0.0.1:8080" ("/x?q=" +:+ q) []
                {[ "q" := [q] ]} no_fields.

(** Two POSTs of the three bytes [a=1] to one target: the first announces
    plain text, and [ParseMultipartForm] finds no field; the second
    announces a URL-encoded form, and the field [a] is parsed from the
    body. *)
Definition post (contentType body : string) (form : Values) : HttpRequest :=
  mkHttpRequest "POST" (target "/form" "")
                {[ "Content-Type" := [contentType] ]}
                "127.0.0.1:8080" "/form" (text body) form no_fields.

Definition plain_post : HttpRequest := post "text/plain" "a=1" ∅.

Definition form_post : HttpRequest :=
  post "application/x-www-form-urlencoded" "a=1" {[ "a" := ["1"] ]}.

(** The two forms of the test "differentiates requests with different
    bodies". *)
Definition formOne : HttpRequest :=
  post "application/x-www-form-urlencoded" "Foo=Bar" {[ "Foo" := ["Bar"] ]}.

Definition formTwo : HttpRequest :=
  post "application/x-www-form-urlencoded" "Baz=Quux&Foo=Bar"
       {[ "Foo" := ["Bar"]; "Baz" := ["Quux"] ]}.

(** A POST of a JSON body to a target with a query string: the body holds
    no form field, and [req.Form] has the parameter of the query string. *)
Definition json_post (body : string) : HttpRequest :=
  mkHttpRequest "POST" (target "/x" "q=1")
                {[ "Content-Type" := ["application/json"] ]}
                "127.0.0.1:8080" "/x?q=1" (text body)
                {[ "q" := ["1"] ]} no_fields.

(** A form POST, and an episode recorded for a form with one more field. *)
Definition recorded_form : RecordedRequest :=
  mkRecordedRequest (target "/form" "")
                    {[ "Content-Type" := ["application/x-www-form-urlencoded"] ]}
                    "POST" (Slice (text "a=1&b=2")) {[ "a" := ["1"]; "b" := ["2"] ]}.

(** A text body that is not UTF-8: "café" in Latin-1. *)
Definition cafe : list byte := [x63; x61; x66; xe9].

Definition an_episode (contentType : string) (body : list byte) : Episode :=
  mkEpisode
    (mkRecordedRequest (target "/menu" "") ∅ "GET" (Slice []) ∅)
    (mkRecordedResponse 200 {[ "Content-Type" := [contentType] ]} (Slice body)).

Definition with_episodes (es : list Episode) : Config :=
  mkConfig "upstream:80" "cassettes" es "a" true false true [].

Definition cafe_config : Config := with_episodes [an_episode "text/plain" cafe].

(** A JSON body and a binary body. *)
Definition mixed_config : Config :=
  with_episodes [an_episode "application/json" (text "[1, 2, 3]");
                 an_episode "image/png" [x89; x50; x4e; x47; x00; xff]].

(** A cassette file that is well-formed JSON with a status code written as
    a string: [Unmarshal] reports the type error, skips that field and
    decodes the rest. *)
Definition type_error : string :=
  "json: cannot unmarshal string into Go struct field WriteableRecordedResponse.Response.StatusCode of type int".

Definition mistyped : data :=
  mkData
    [mkWriteableEpisode
       (mkWriteableRecordedRequest "GET" (target "/menu" "") ∅ (IString "") ∅)
       (mkWriteableRecordedResponse 0 (IString "aGVsbG8=") ∅)]
    (Some type_error).

Definition mistyped_disk : FS :=
  mkFS {[ "cassettes/a.json" := Readable mistyped ]} writable untorn.

(** A file system that refuses every write. *)
Definition full_disk : FS :=
  mkFS ∅ (λ _, Some "no space left on device") untorn.

(** A file system on which the write of cassette [a] fails after the file
    was truncated: what is left is a file with no JSON in it. *)
Definition truncated : file :=
  Readable (mkData [] (Some "unexpected end of JSON input")).

Definition tearing_disk : FS :=
  mkFS ∅
       (λ path, if bool_decide (path = "cassettes/a.json")
                then Some "no space left on device" else None)
       (λ path, if bool_decide (path = "cassettes/a.json")
                then Some truncated else None).

(** A cassette directory without the subdirectory [sub]: [os.MkdirAll]
    makes the cassette directory alone, and the file of a cassette named
    [sub/a] cannot be created. *)
Definition flat_disk : FS :=
  mkFS ∅
       (λ path, if bool_decide (path = "cassettes/sub/a.json")
                then Some "open cassettes/sub/a.json: no such file or directory"
                else None)
       untorn.

(** A configuration for a directory and a cassette name as they are
    spelled. *)
Definition spelled (dir name : string) : Config :=
  mkConfig "upstream:80" dir [] name true false true [].

(** Requests to the control endpoint. *)
Definition control_request (method : string) (fields : ConfigFields) : HttpRequest :=
  mkHttpRequest method (target "/__betamax__/config" "") ∅
                "127.0.0.1:8080" "/__betamax__/config" [] ∅ fields.


(** [{"cassette": "b"}] *)
Definition insert_b : ConfigFields :=
  mkConfigFields None None None (Some "b") None None None None.

(** Cassette [a], replay only. *)
Definition replay_only : Config :=
  mkConfig "upstream:80" "cassettes" [] "a" false true true [].

End Scenario.

(** ** Further concrete inputs *)

Module Tray.
Import Store.

(** No cassette in the tray: the configuration [Proxy] starts with. *)
Definition empty : Config := initial "cassettes" "upstream:80".

(** Cassette [a] after [GET /x?q=1] was recorded, [Accept] being matched,
    and the cassette directory after that recording. *)
Definition recorded_once : Config :=
  config' (Proxy Scenario.upstream Scenario.fresh_accept Scenario.disk
                 (Scenario.get "1" "curl/8")).

Definition recorded_disk : FS :=
  fs' (Proxy Scenario.upstream Scenario.fresh_accept Scenario.disk
             (Scenario.get "1" "curl/8")).

(** The episode of that recording. *)
Definition first_episode : Episode :=
  mkEpisode (recordRequest (Scenario.get "1" "curl/8"))
            (Scenario.upstream (Scenario.get "1" "curl/8")).

(** A cassette file that exists and cannot be read. *)
Definition unreadable_disk : FS :=
  mkFS {[ "cassettes/a.json" := Unreadable "permission denied" ]}
       Scenario.writable Scenario.untorn.

(** The recorded cassette on a file system that refuses every change. *)
Definition stuck_disk : FS :=
  mkFS (files recorded_disk) (λ _, Some "read-only file system") Scenario.untorn.

(** Cassette [a], neither recording nor denying. *)
Definition permissive : Config :=
  mkConfig "upstream:80" "cassettes" [] "a" false false true [].

(** [{"cassette": "a"}] *)
Definition insert_a : ConfigFields :=
  mkConfigFields None None None (Some "a") None None None None.


(** A cassette file in which a body is [null]. *)
Definition null_body : data :=
  mkData
    [mkWriteableEpisode
       (mkWriteableRecordedRequest "GET" (Scenario.target "/menu" "") ∅ (IString "") ∅)
       (mkWriteableRecordedResponse 204 INil ∅)]
    None.

(** The writeable form of the episodes of [Scenario.mixed_config]. *)
Definition mixed_writeable : list WriteableEpisode :=
  match writeableEpisodes (Episodes Scenario.mixed_config) with
  | Ok ws => ws
  | Panic _ => []
  end.

Definition null_body_disk : FS :=
  mkFS {[ "cassettes/b.json" := Readable null_body ]}
       Scenario.writable Scenario.untorn.

End Tray.

(** The body [i] is what [writableBodyForContentType] makes of the bytes
    [body] under [headers]: the same bytes as a string when [IsText] holds,
    the bytes themselves otherwise. *)
Definition written_as (headers : Header) (body : slice) (i : iface) : Prop :=
  match i with
  | IString s => IsText headers = Ok true ∧ list_byte_of_string s = contents body
  | IBytes p => IsText headers = Ok false ∧ p = body
  | _ => False
  end.

(** * Properties *)

(** ** The models of the standard library on small inputs *)

Example EncodeToString_hello :
  Base64.EncodeToString (Scenario.text "hello") = "aGVsbG8=".
Proof. reflexivity. Qed.

Example DecodeString_skips_line_breaks :
  Base64.DecodeString (String "a" (String "G" (String "V" (String "s"
                      (String (ascii_of_nat 10) "bG8=")))))
  = (Scenario.text "hello", true).
Proof. reflexivity. Qed.

Example DecodeString_corrupt :
  Base64.DecodeString "aGVs*G8=" = (Scenario.text "hel", false).
Proof. reflexivity. Qed.

Example coerce_ascii : JSON.coerce (Scenario.text "hello") = Scenario.text "hello".
Proof. reflexivity. Qed.

Example coerce_two_byte_sequence : JSON.coerce [x63; xc3; xa9] = [x63; xc3; xa9].
Proof. reflexivity. Qed.

Example coerce_stray_byte : JSON.coerce [x63; xe9] = [x63; xef; xbf; xbd].
Proof. reflexivity. Qed.

Example coerce_surrogate : JSON.coerce [xed; xa0; x80] = JSON.replacement ++ JSON.replacement ++ JSON.replacement.
Proof. reflexivity. Qed.

Example matches_text_html : matches_text "text/html; charset=utf-8" = true.
Proof. reflexivity. Qed.

Example matches_text_json : matches_text "application/json" = true.
Proof. reflexivity. Qed.

Example matches_text_png : matches_text "image/png" = false.
Proof. reflexivity. Qed.

Example IsText_without_content_type : IsText ∅ = Ok false.
Proof. reflexivity. Qed.

Example path_Clean_elements :
  Store.path_Clean "abc//def//ghi" = "abc/def/ghi" ∧
  Store.path_Clean "abc/./../def" = "def" ∧
  Store.path_Clean "abc/def/../../.." = ".." ∧
  Store.path_Clean "/abc/def/../../.." = "/" ∧
  Store.path_Clean "abc/../../././../def" = "../../def" ∧
  Store.path_Clean "" = ".".
Proof. split_and!; reflexivity. Qed.

Example CassetteFile_fresh : CassetteFile Scenario.fresh = "cassettes/a.json".
Proof. reflexivity. Qed.

(** One file under several spellings of the directory and of the name; with
    no directory the file is in the working directory. *)
Example CassetteFile_cleaned :
  CassetteFile (Scenario.spelled "./cassettes/" "a") = "cassettes/a.json" ∧
  CassetteFile (Scenario.spelled "cassettes" "./a") = "cassettes/a.json" ∧
  CassetteFile (Scenario.spelled "cassettes" "sub/../a") = "cassettes/a.json" ∧
  CassetteFile (Scenario.spelled "cassettes" "../a") = "a.json" ∧
  CassetteFile (Scenario.spelled "" "a") = "a.json".
Proof. split_and!; reflexivity. Qed.

(** ** The scenarios of the test suite *)

(** "replays requests when a cassette is set": recorded once, then answered
    without the upstream. *)
Example replays_requests_when_a_cassette_is_set :
  let r := Scenario.get "1" "curl/8" in
  let o1 := Proxy Scenario.upstream Scenario.fresh Scenario.disk r in
  let o2 := Proxy Scenario.unreachable (config' o1) (fs' o1) r in
  forwarded o1 = [rewritten Scenario.fresh r] ∧
  forwarded o2 = [] ∧
  statuses (calls o2) = [200%Z] ∧
  written (calls o2) = Scenario.text "hello".
Proof. cbv zeta. split_and!; by vm_compute. Qed.

(** "differentiates requests with different bodies": the second form has a
    field more and is recorded on its own; the first form is then replayed. *)
Example differentiates_requests_with_different_bodies :
  let o1 := Proxy Scenario.upstream Scenario.fresh Scenario.disk Scenario.formOne in
  let o2 := Proxy Scenario.upstream (config' o1) (fs' o1) Scenario.formTwo in
  let o3 := Proxy Scenario.unreachable (config' o2) (fs' o2) Scenario.formOne in
  length (forwarded o1) = 1 ∧
  length (forwarded o2) = 1 ∧
  forwarded o3 = [] ∧
  length (Episodes (config' o3)) = 2.
Proof. cbv zeta. split_and!; by vm_compute. Qed.

(** In the other order the first form finds the episode of the second one:
    only the fields of the live form are compared. *)
Example fewer_fields_replay_more_fields :
  let o1 := Proxy Scenario.upstream Scenario.fresh Scenario.disk Scenario.formTwo in
  let o2 := Proxy Scenario.unreachable (config' o1) (fs' o1) Scenario.formOne in
  forwarded o2 = [] ∧ length (Episodes (config' o2)) = 1.
Proof. cbv zeta. split_and!; by vm_compute. Qed.

(** "records nothing without a current cassette" *)
Example records_nothing_without_a_current_cassette :
  let r := Scenario.get "1" "curl/8" in
  let config := initial "cassettes" "upstream:80" in
  let o1 := Proxy Scenario.upstream config Scenario.disk r in
  let o2 := Proxy Scenario.unreachable (config' o1) (fs' o1) r in
  Episodes (config' o1) = [] ∧ fs' o1 = Scenario.disk ∧
  statuses (calls o2) = [502%Z].
Proof. cbv zeta. split_and!; by vm_compute. Qed.

(** ** Base64: decoding what was encoded *)

Module Base64Facts.
Import Base64.

Lemma decode_encode_char (s : sextet) : decode_char (encode_char s) = Some s.
Proof.
  destruct s as [[[[[[] []] []] []] []] []]; vm_compute; reflexivity.
Qed.

Lemma encode_char_not_pad (s : sextet) : encode_char s ≠ padChar.
Proof.
  destruct s as [[[[[[] []] []] []] []] []]; vm_compute; discriminate.
Qed.

Lemma encode_char_not_newline (s : sextet) : is_newline (encode_char s) = false.
Proof.
  destruct s as [[[[[[] []] []] []] []] []]; vm_compute; reflexivity.
Qed.

Lemma of_bits_bits (x : byte) :
  let '(x7, x6, x5, x4, x3, x2, x1, x0) := bits x in
  of_bits x7 x6 x5 x4 x3 x2 x1 x0 = x.
Proof.
  unfold bits, of_bits. pose proof (Byte.of_bits_to_bits x) as E.
  destruct (Byte.to_bits x) as (b0 & b1 & b2 & b3 & b4 & b5 & b6 & b7).
  exact E.
Qed.

(** Splitting a list three elements at a time. *)
Lemma list_ind3 {A : Type} (P : list A → Prop) :
  P [] → (∀ x, P [x]) → (∀ x y, P [x; y]) →
  (∀ x y z l, P l → P (x :: y :: z :: l)) →
  ∀ l, P l.
Proof.
  intros H0 H1 H2 H3.
  assert (H : ∀ l, P l ∧ (∀ x, P (x :: l)) ∧ (∀ x y, P (x :: y :: l))).
  { induction l as [|a l (IH0 & IH1 & IH2)]; [by auto|].
    split; [exact (IH1 a)|]. split; [exact (λ x, IH2 x a)|].
    intros x y. apply H3, IH0. }
  intros l. apply H.
Qed.

Ltac open_bits x :=
  let H := fresh "H" in
  pose proof (of_bits_bits x) as H;
  destruct (bits x) as [[[[[[[? ?] ?] ?] ?] ?] ?] ?].

Ltac decode_step :=
  rewrite ?decode_encode_char; simpl;
  repeat (rewrite (bool_decide_eq_false_2 (encode_char _ = padChar))
            by apply encode_char_not_pad);
  rewrite ?decode_encode_char; simpl.

Lemma decode_encode (src : list byte) : decode (encode src) = (src, true).
Proof.
  induction src as [|x|x y|x y z l IH] using list_ind3.
  - reflexivity.
  - simpl. open_bits x. cbn [decode]. decode_step. congruence.
  - simpl. open_bits x. open_bits y. cbn [decode]. decode_step. congruence.
  - cbn [encode]. open_bits x. open_bits y. open_bits z.
    cbn [decode]. decode_step. rewrite IH. simpl. congruence.
Qed.

Lemma encode_no_newline (src : list byte) :
  List.filter (λ c, negb (is_newline c)) (encode src) = encode src.
Proof.
  induction src as [|x|x y|x y z l IH] using list_ind3.
  - reflexivity.
  - simpl. open_bits x. simpl. rewrite !encode_char_not_newline. reflexivity.
  - simpl. open_bits x. open_bits y. simpl.
    rewrite !encode_char_not_newline. reflexivity.
  - cbn [encode]. open_bits x. open_bits y. open_bits z.
    cbn [List.filter]. rewrite !encode_char_not_newline. simpl.
    rewrite IH. reflexivity.
Qed.

(** [DecodeString(EncodeToString(src))] is [src], without error. *)
Lemma DecodeString_EncodeToString (src : list byte) :
  DecodeString (EncodeToString src) = (src, true).
Proof.
  unfold DecodeString, EncodeToString.
  rewrite list_ascii_of_string_of_list_ascii, encode_no_newline.
  apply decode_encode.
Qed.

End Base64Facts.

(** ** The matcher *)

Section Matcher.

Implicit Types (recorded newRequest : Header) (aForm form : Values).
Implicit Types (newv recv : list string) (idx : list nat).

(** Two slices of one length that agree at every index of the first. *)
Lemma same_length_same_items newv recv :
  length newv = length recv →
  (∀ i, i ∈ seq 0 (length newv) → newv !! i = recv !! i) →
  newv = recv.
Proof.
  intros Hlen Hat. apply list_eq. intros i.
  destruct (decide (i < length newv)) as [Hi|Hi].
  - apply Hat. apply elem_of_seq. lia.
  - rewrite !lookup_ge_None_2 by lia. reflexivity.
Qed.

Lemma sameHeaders_values_true newv recv idx :
  sameHeaders_values newv recv idx = true ↔
  idx = [] ∨ (length newv = length recv ∧ ∀ i, i ∈ idx → newv !! i = recv !! i).
Proof.
  induction idx as [|i rest IH]; simpl.
  - split; auto.
  - case_bool_decide as Hlen; simpl.
    + case_bool_decide as Hi; simpl.
      * rewrite IH. split.
        -- intros [->|[_ Hrest]]; right; split; auto.
           ++ intros j Hj. apply list_elem_of_singleton in Hj. by subst.
           ++ intros j [->|Hj]%elem_of_cons; auto.
        -- intros [?|[_ Hall]]; [done|]. right. split; [done|].
           intros j Hj. apply Hall. by right.
      * split; [done|]. intros [?|[_ Hall]]; [done|].
        destruct Hi. apply Hall. by left.
    + split; [done|]. intros [?|[? _]]; done.
Qed.

(** The inner loop of [sameHeaders] accepts a header exactly when the live
    request has no value for it, or has the recorded values. *)
Lemma sameHeaders_values_spec newv recv :
  sameHeaders_values newv recv (seq 0 (length newv)) = true ↔
  newv = [] ∨ newv = recv.
Proof.
  rewrite sameHeaders_values_true. split.
  - intros [Hnil|[Hlen Hat]].
    + left. destruct newv; [done|discriminate].
    + right. by apply same_length_same_items.
  - intros [-> | ->]; [by left|]. right. done.
Qed.

Lemma sameHeaders_loop_true recorded newRequest (hs : list string) :
  sameHeaders_loop recorded newRequest hs = true ↔
  ∀ header, header ∈ hs →
    index newRequest header = [] ∨
    index newRequest header = index recorded header.
Proof.
  induction hs as [|h rest IH]; simpl.
  - split; [|done]. intros _ header Hin. by apply elem_of_nil in Hin.
  - destruct (sameHeaders_values _ _ _) eqn:Hv.
    + apply sameHeaders_values_spec in Hv. rewrite IH. split.
      * intros Hrest header [->|Hin]%elem_of_cons; auto.
      * intros Hall header Hin. apply Hall. by right.
    + split; [done|]. intros Hall.
      assert (Hh : sameHeaders_values (index newRequest h) (index recorded h)
                     (seq 0 (length (index newRequest h))) = true).
      { apply sameHeaders_values_spec, Hall. by left. }
      congruence.
Qed.

(** What [sameHeaders] decides. *)
Lemma sameHeaders_true recorded newRequest config :
  sameHeaders recorded newRequest config = true ↔
  ∀ header, header ∈ MatchHeaders config →
    index newRequest header = [] ∨
    index newRequest header = index recorded header.
Proof. apply sameHeaders_loop_true. Qed.

(** Only the headers of [MatchHeaders] are looked at. *)
Lemma sameHeaders_listed_only recorded recorded' newRequest newRequest' config config' :
  MatchHeaders config = MatchHeaders config' →
  (∀ header, header ∈ MatchHeaders config →
     index recorded header = index recorded' header ∧
     index newRequest header = index newRequest' header) →
  sameHeaders recorded newRequest config = sameHeaders recorded' newRequest' config'.
Proof.
  intros Hm Hsame. apply eq_true_iff_eq. rewrite !sameHeaders_true, <- Hm.
  split; intros Hall header Hin; destruct (Hsame header Hin) as [Hr Hn];
    specialize (Hall header Hin).
  - by rewrite <- Hr, <- Hn.
  - by rewrite Hr, Hn.
Qed.

Lemma sameHeaders_refl h config : sameHeaders h h config = true.
Proof. apply sameHeaders_true. auto. Qed.

Lemma sameForm_values_true recv newv idx :
  sameForm_values recv newv idx = true ↔ ∀ i, i ∈ idx → recv !! i = newv !! i.
Proof.
  induction idx as [|i rest IH]; simpl.
  - split; [|done]. intros _ i Hin. by apply elem_of_nil in Hin.
  - case_bool_decide as Hi; simpl.
    + rewrite IH. split.
      * intros Hrest j [->|Hj]%elem_of_cons; auto.
      * intros Hall j Hj. apply Hall. by right.
    + split; [done|]. intros Hall. destruct Hi. apply Hall. by left.
Qed.

Lemma sameForm_loop_true aForm form (keys : list string) :
  sameForm_loop aForm form keys = true ↔
  ∀ key, key ∈ keys → index aForm key = index form key.
Proof.
  induction keys as [|k rest IH]; simpl.
  - split; [|done]. intros _ key Hin. by apply elem_of_nil in Hin.
  - case_bool_decide as Hlen; simpl.
    + destruct (sameForm_values _ _ _) eqn:Hv.
      * rewrite sameForm_values_true in Hv. rewrite IH. split.
        -- intros Hrest key [->|Hin]%elem_of_cons; [|by auto].
           symmetry. apply same_length_same_items; [done|].
           intros i Hi. symmetry. by apply Hv.
        -- intros Hall key Hin. apply Hall. by right.
      * split; [done|]. intros Hall.
        assert (Hk : index aForm k = index form k) by (apply Hall; by left).
        assert (sameForm_values (index aForm k) (index form k)
                  (seq 0 (length (index form k))) = true) as Hv'.
        { apply sameForm_values_true. intros i _. by rewrite Hk. }
        congruence.
    + split; [done|]. intros Hall. destruct Hlen.
      by rewrite (Hall k) by (by left).
Qed.

(** The keys of the live form are its fields. *)
Lemma form_keys form (key : string) :
  key ∈ (map_to_list form).*1 ↔ is_Some (form !! key).
Proof.
  rewrite list_elem_of_fmap. split.
  - intros [[k vs] [-> Hin]]. apply elem_of_map_to_list in Hin. by exists vs.
  - intros [vs Hvs]. exists (key, vs). split; [done|].
    by apply elem_of_map_to_list.
Qed.

(** What [sameRequest] decides. *)
Lemma sameRequest_true (a : RecordedRequest) (b : HttpRequest) config :
  sameRequest a b config = true ↔
  rr_Method a = Method b ∧
  sameURL (rr_URL a) (Url b) = true ∧
  sameHeaders (rr_Header a) (ReqHeader b) config = true ∧
  (∀ key, is_Some (Form b !! key) → index (rr_Form a) key = index (Form b) key) ∧
  (Form b = ∅ → contents (rr_Body a) = Body b).
Proof.
  unfold sameRequest, peekForm, peekBytes.
  case_bool_decide as Hm; simpl; [|by intuition].
  destruct (sameURL _ _); simpl; [|by intuition].
  destruct (sameHeaders _ _ _); simpl; [|by intuition].
  destruct (sameForm_loop _ _ _) eqn:Hf; simpl.
  - rewrite sameForm_loop_true in Hf.
    assert (Hkeys : ∀ key, is_Some (Form b !! key) →
                           index (rr_Form a) key = index (Form b) key).
    { intros key Hk. by apply Hf, form_keys. }
    case_bool_decide as Hsz.
    + apply map_size_empty_iff in Hsz.
      case_bool_decide as Hb; simpl; [by intuition|].
      split; [done|]. intros (_ & _ & _ & _ & Hbody). by destruct Hb; auto.
    + split; [|done]. intros _. repeat split; auto.
      intros He. destruct Hsz. by apply map_size_empty_iff.
  - split; [done|]. intros (_ & _ & _ & Hkeys & _).
    assert (sameForm_loop (rr_Form a) (Form b) (map_to_list (Form b)).*1 = true).
    { apply sameForm_loop_true. intros key Hk. by apply Hkeys, form_keys. }
    congruence.
Qed.

End Matcher.

(** ** Claims about the matcher and the lookup *)

Section MatcherClaims.

(** C2 (the code misses a case).  [sameHeaders] tests the lengths inside
    the loop over the values of the live request, so a listed header that
    the live request lacks is never compared: with [Accept] in
    [MatchHeaders], a recorded request that has [Accept: text/html] and a
    live request without [Accept] are declared the same, although the two
    lists of values have lengths 1 and 0. *)
Theorem sameHeaders_skips_absent_live_header :
  let config := mkConfig "upstream:80" "cassettes" [] "a" true false true ["Accept"] in
  let recorded : Header := {[ "Accept" := ["text/html"] ]} in
  let live : Header := ∅ in
  sameHeaders recorded live config = true ∧
  length (index live "Accept") = 0 ∧
  length (index recorded "Accept") = 1.
Proof. vm_compute. auto. Qed.

(** The part of C2 that does hold: a header outside [MatchHeaders] has no
    effect, whatever its values on either side. *)
Lemma sameHeaders_ignores_unlisted recorded live config (header : string)
      (vs vs' : list string) :
  header ∉ MatchHeaders config →
  sameHeaders (<[header := vs]> recorded) (<[header := vs']> live) config
  = sameHeaders recorded live config.
Proof.
  intros Hout. apply sameHeaders_listed_only; [done|].
  intros h Hin. assert (header ≠ h) by (intros ->; done).
  unfold index. by rewrite !lookup_insert_ne.
Qed.

(** C3, amended.  The form of the live request is [req.Form]: the
    parameters of the query string together with the fields of a body that
    is a form.  After the method, the target and the selected headers, a
    live request with a non-empty form is compared on the fields of that
    form only: each must have the same list of values in the recorded form;
    a field that only the recorded form has changes nothing, and the bodies
    are not looked at.  With an empty form, which a request has only when
    its target has no query parameter and its body no form field, the
    bodies are compared byte for byte. *)
Theorem sameRequest_body_identity (a : RecordedRequest) (b : HttpRequest)
        (config : Config) :
  let earlier := rr_Method a = Method b ∧
                 sameURL (rr_URL a) (Url b) = true ∧
                 sameHeaders (rr_Header a) (ReqHeader b) config = true in
  (Form b ≠ ∅ →
     (sameRequest a b config = true ↔
      earlier ∧
      ∀ key vs, Form b !! key = Some vs → index (rr_Form a) key = vs)) ∧
  (Form b ≠ ∅ →
     ∀ key vs, Form b !! key = None →
       sameRequest (mkRecordedRequest (rr_URL a) (rr_Header a) (rr_Method a)
                      (rr_Body a) (<[key := vs]> (rr_Form a))) b config
       = sameRequest a b config) ∧
  (Form b = ∅ →
     (sameRequest a b config = true ↔ earlier ∧ contents (rr_Body a) = Body b)).
Proof.
  intros earlier. subst earlier. split; [|split].
  - intros Hne. rewrite sameRequest_true. split.
    + intros (Hm & Hu & Hh & Hk & _). repeat split; auto.
      intros key vs Hvs. rewrite Hk by eauto. unfold index. by rewrite Hvs.
    + intros ((Hm & Hu & Hh) & Hk). split_and!; auto; [|done].
      intros key [vs Hvs]. rewrite (Hk key vs Hvs). unfold index. by rewrite Hvs.
  - intros Hne key vs Hkey. apply eq_true_iff_eq. rewrite !sameRequest_true. simpl.
    assert (Hsame : ∀ k, is_Some (Form b !! k) →
              index (<[key := vs]> (rr_Form a)) k = index (rr_Form a) k).
    { intros k [v Hk]. unfold index. rewrite lookup_insert_ne; [done|].
      intros ->. congruence. }
    split; intros (Hm & Hu & Hh & Hk & Hb); split_and!; auto.
    + intros k Hsome. rewrite <- Hsame by done. by apply Hk.
    + intros k Hsome. rewrite Hsame by done. by apply Hk.
  - intros He. rewrite sameRequest_true. split.
    + intros (Hm & Hu & Hh & _ & Hb). auto.
    + intros ((Hm & Hu & Hh) & Hb). split_and!; auto.
      intros key [vs Hvs]. rewrite He, lookup_empty in Hvs. discriminate.
Qed.

Lemma findEpisode_loop_Some req config (es : list Episode) (e : Episode) :
  findEpisode_loop req config es = Some e ↔
  ∃ before after : list Episode,
    es = before ++ e :: after ∧
    sameRequest (Request e) req config = true ∧
    Forall (λ e', sameRequest (Request e') req config = false) before.
Proof.
  induction es as [|e0 rest IH]; simpl.
  - split; [done|]. intros (before & after & Heq & _). by destruct before.
  - destruct (sameRequest (Request e0) req config) eqn:H0.
    + split.
      * intros [= <-]. exists [], rest. auto.
      * intros ([|e1 before] & after & Heq & He & Hbefore); simplify_eq/=.
        -- done.
        -- apply Forall_cons in Hbefore as [Hno _]. congruence.
    + rewrite IH. split.
      * intros (before & after & -> & He & Hbefore).
        exists (e0 :: before), after. auto.
      * intros ([|e1 before] & after & Heq & He & Hbefore); simplify_eq/=.
        -- congruence.
        -- apply Forall_cons in Hbefore as [_ Hbefore]. eauto.
Qed.

Lemma findEpisode_loop_None req config (es : list Episode) :
  findEpisode_loop req config es = None ↔
  Forall (λ e', sameRequest (Request e') req config = false) es.
Proof.
  induction es as [|e0 rest IH]; simpl.
  - split; auto.
  - destruct (sameRequest (Request e0) req config) eqn:H0.
    + split; [done|]. intros [Hno _]%Forall_cons. congruence.
    + rewrite IH. split; [by constructor|]. by intros [_ ?]%Forall_cons.
Qed.

(** C4.  [findEpisode] returns the first episode, in the order of
    [config.Episodes], whose recorded request is the same as the live one:
    whatever matches later is not looked at; and it returns nothing exactly
    when no episode matches.  The episode found is the one replayed. *)
Theorem findEpisode_first_match (req : HttpRequest) (config : Config) :
  (∀ e, findEpisode req config = Some e ↔
        ∃ before after : list Episode,
          Episodes config = before ++ e :: after ∧
          sameRequest (Request e) req config = true ∧
          Forall (λ e', sameRequest (Request e') req config = false) before) ∧
  (findEpisode req config = None ↔
     Forall (λ e', sameRequest (Request e') req config = false) (Episodes config)) ∧
  (∀ e handler fs,
     Cassette config ≠ "" → findEpisode req config = Some e →
     cassetteHandler handler config fs req
     = mkOutcome (serveEpisode e) [] config fs None).
Proof.
  split; [|split].
  - intros e. apply findEpisode_loop_Some.
  - apply findEpisode_loop_None.
  - intros e handler fs Hc He. unfold cassetteHandler.
    rewrite bool_decide_eq_false_2 by done. by rewrite He.
Qed.

End MatcherClaims.

(** ** The cassette store *)

Section StoreFacts.
Import JSON Store.

Lemma clean_true (s : string) : clean s = true → json_string s = s.
Proof. unfold clean. by intros ?%bool_decide_eq_true_1. Qed.

Lemma clean_values (vs : list string) :
  forallb clean vs = true → json_string <$> vs = vs.
Proof.
  induction vs as [|v vs IH]; simpl; [done|].
  intros [Hv Hvs]%andb_true_iff.
  f_equal; [by apply clean_true|by apply IH].
Qed.

(** A map whose keys and values are clean is read back as it was written. *)
Lemma json_map_clean (m : gmap string (list string)) :
  clean_map m = true → json_map m = m.
Proof.
  unfold clean_map, json_map. intros Hclean.
  rewrite <- (list_to_map_to_list m) at 2. f_equal.
  induction (map_to_list m) as [|[k vs] l IH]; simpl in *; [done|].
  apply andb_true_iff in Hclean as [[Hk Hvs]%andb_true_iff Hl].
  f_equal; [|by apply IH].
  f_equal; [by apply clean_true|by apply clean_values].
Qed.

Lemma json_url_clean (u : URL) : Clean.url u = true → json_url u = u.
Proof.
  unfold Clean.url, Clean.user, json_url, json_user.
  destruct u as [s o u h p rp oh fq q f rf]. simpl.
  rewrite !andb_true_iff. intros [[[[[[[[Hs Ho] Hu] Hh] Hp] Hrp] Hq] Hf] Hrf].
  rewrite !clean_true by done. f_equal.
  destruct u as [[name pw set]|]; [|done]. simpl in Hu.
  apply andb_true_iff in Hu as [[Hn Hpw]%andb_true_iff Hset].
  apply bool_decide_eq_true_1 in Hn, Hpw. apply negb_true_iff in Hset.
  by subst.
Qed.

(** One body, written and read back under the same headers. *)
Lemma body_read_back (headers : Header) (b : slice) (i : iface) :
  Clean.body headers b = true →
  writableBodyForContentType b headers = Ok i →
  bodyForContentType (json_body i) headers = Ok b.
Proof.
  unfold Clean.body, writableBodyForContentType, bodyForContentType.
  destruct b as [|p]; [done|].
  destruct (IsText headers) as [[|]|msg]; simpl; [| |done].
  - intros Hp%bool_decide_eq_true_1 [= <-]. simpl.
    unfold json_string.
    by rewrite !list_byte_of_string_of_list_byte, Hp.
  - intros _ [= <-]. simpl.
    by rewrite Base64Facts.DecodeString_EncodeToString.
Qed.

Lemma episode_read_back (e : Episode) (w : WriteableEpisode) :
  Clean.episode e = true →
  writeableEpisode e = Ok w →
  episode (json_episode w) = Ok e.
Proof.
  destruct e as [[u h m b f] [code h' b']].
  unfold Clean.episode, Clean.request, Clean.response, writeableEpisode. simpl.
  rewrite !andb_true_iff.
  intros [[[[[Hm Hu] Hh] Hf] Hb] [Hh' Hb']].
  destruct (writableBodyForContentType b h) as [qbody|] eqn:Hq; [|done].
  destruct (writableBodyForContentType b' h') as [sbody|] eqn:Hs; [|done].
  simpl. intros [= <-]. unfold episode. simpl.
  rewrite !json_map_clean, json_url_clean, clean_true by done.
  rewrite (body_read_back h b qbody), (body_read_back h' b' sbody) by done.
  reflexivity.
Qed.

Lemma episodes_read_back (es : list Episode) (ws : list WriteableEpisode) :
  forallb Clean.episode es = true →
  writeableEpisodes es = Ok ws →
  episodes (json_episode <$> ws) = Ok es.
Proof.
  unfold writeableEpisodes, episodes. revert ws.
  induction es as [|e es IH]; intros ws; simpl.
  - by intros _ [= <-].
  - intros [He Hes]%andb_true_iff.
    destruct (writeableEpisode e) as [w|] eqn:Hw; [|done]. simpl.
    destruct (rmap writeableEpisode es) as [ws'|] eqn:Hws; [|done]. simpl.
    intros [= <-]. rewrite fmap_cons. cbn [rmap].
    rewrite (episode_read_back e w) by done. simpl.
    by rewrite (IH ws').
Qed.

(** What [Save] leaves on a file system that takes the write. *)
Lemma Save_written (c : Config) (fs fs1 : FS) :
  Save c fs = Ok (fs1, None) →
  ∃ ws, writeableEpisodes (Episodes c) = Ok ws ∧
        files fs1 !! CassetteFile c = Some (Readable (MarshalIndent ws)).
Proof.
  unfold Save, WriteFile.
  destruct (writeableEpisodes (Episodes c)) as [ws|]; [|done]. simpl.
  destruct (write_error fs _); [done|]. intros [= <-]. exists ws.
  split; [done|]. simpl. by rewrite lookup_insert_eq.
Qed.




(** The nil slice does not come back either.  What the reverse proxy
    answers for an upstream that cannot be reached has no content type and
    no body: the episode is saved with [null] for the body of the response,
    and [Load] panics on that file. *)
Lemma Load_Save_nil_body :
  let r := Scenario.get "1" "curl/8" in
  let c := Scenario.with_episodes
             [mkEpisode (recordRequest r) (Scenario.unreachable r)] in
  ∃ fs1 d,
    Save c Scenario.disk = Ok (fs1, None) ∧
    files fs1 !! CassetteFile c = Some (Readable d) ∧
    (ws_Body ∘ w_Response) <$> decoded d = [INil] ∧
    Load Scenario.fresh fs1
    = Panic "interface conversion: interface {} is nil, not string".
Proof.
  cbv zeta. eexists _, _. split; [vm_compute; reflexivity|].
  split_and!; by vm_compute.
Qed.

(** Kept as text, a nil body comes back empty and not nil. *)
Lemma Load_Save_nil_text_body :
  let e := mkEpisode (recordRequest (Scenario.get "1" "curl/8"))
                     (mkRecordedResponse 204 {[ "Content-Type" := ["text/plain"] ]} Nil) in
  ∃ fs1 c1,
    Save (Scenario.with_episodes [e]) Scenario.disk = Ok (fs1, None) ∧
    Load Scenario.fresh fs1 = Ok (c1, None) ∧
    (rs_Body ∘ Response) <$> Episodes c1 = [Slice []].
Proof.
  cbv zeta. eexists _, _. split; [vm_compute; reflexivity|].
  split; [vm_compute; reflexivity|]. by vm_compute.
Qed.

End StoreFacts.

(** ** The pipeline *)

Section Pipeline.
Import Store.

Implicit Types (proxy : Forward) (config : Config) (fs : FS) (r : HttpRequest).

(** The host is not part of what the matcher compares. *)
Lemma sameRequest_rewritten (a : RecordedRequest) config config0 r :
  sameRequest a (rewritten config0 r) config = sameRequest a r config.
Proof. unfold rewritten. by destruct (RewriteHostHeader config0). Qed.

Lemma findEpisode_rewritten config config0 r :
  findEpisode (rewritten config0 r) config = findEpisode r config.
Proof.
  unfold findEpisode. induction (Episodes config) as [|e es IH]; simpl; [done|].
  by rewrite sameRequest_rewritten, IH.
Qed.

Lemma recordRequest_rewritten config r :
  recordRequest (rewritten config r) = recordRequest r.
Proof. unfold rewritten. by destruct (RewriteHostHeader config). Qed.

Lemma Path_rewritten config r : Path (Url (rewritten config r)) = Path (Url r).
Proof. unfold rewritten. by destruct (RewriteHostHeader config). Qed.

(** Away from the control endpoint a request goes through the host-rewrite
    stage to the decision stage, inside the recovery stage. *)
Lemma Proxy_decision proxy config fs r :
  ¬ control r →
  Proxy proxy config fs r
  = recoverHandler (cassetteHandler proxy) config fs (rewritten config r).
Proof.
  intros Hpath. unfold Proxy, recoverHandler, configHandler, rewriteHeaderHandler.
  unfold control in Hpath. rewrite bool_decide_eq_false_2 by done. reflexivity.
Qed.

Lemma Proxy_control proxy config fs r :
  control r →
  Proxy proxy config fs r = recoverHandler (λ c f q, handleConfigRequest q c f) config fs r.
Proof.
  intros Hpath. unfold Proxy, recoverHandler, configHandler.
  unfold control in Hpath. rewrite bool_decide_eq_true_2 by done. reflexivity.
Qed.

(** [writeEpisode] appends first; what [Save] does afterwards does not
    change the episodes in memory. *)
Lemma writeEpisode_appends (e : Episode) config fs :
  (writeEpisode e config fs).1.1 = set_Episodes config (Episodes config ++ [e]).
Proof.
  unfold writeEpisode. by destruct (Save _ fs) as [[fs1 err]|msg].
Qed.

(** The recording branch, through the whole pipeline. *)
Lemma Proxy_records proxy config fs r :
  recorded_under config r →
  let o := Proxy proxy config fs r in
  config' o = set_Episodes config
                (Episodes config
                 ++ [mkEpisode (recordRequest r) (proxy (rewritten config r))]) ∧
  forwarded o = [rewritten config r].
Proof.
  intros (Hpath & Hname & Hnone & Hrec). simpl.
  rewrite Proxy_decision by done.
  unfold recoverHandler, cassetteHandler.
  rewrite bool_decide_eq_false_2 by done.
  rewrite findEpisode_rewritten, Hnone, Hrec.
  unfold serveAndRecord. rewrite recordRequest_rewritten.
  pose proof (writeEpisode_appends
                (mkEpisode (recordRequest r) (proxy (rewritten config r)))
                config fs) as Happ.
  destruct (writeEpisode _ config fs) as [[c1 fs1] [msg|]]; simpl in *; by subst.
Qed.

(** Requests that agree on what the matcher reads are matched alike. *)
Lemma sameRequest_ext (a : RecordedRequest) r r' config config1 :
  MatchHeaders config1 = MatchHeaders config →
  same_exact config r r' →
  Form r' = Form r →
  sameRequest a r' config1 = sameRequest a r config.
Proof.
  intros Hm (Hmeth & Hp & Hq & Hf & Hh & Hb) Hform.
  unfold sameRequest, sameURL, peekForm, peekBytes.
  rewrite Hmeth, Hp, Hq, Hf, Hform, Hb.
  rewrite (sameHeaders_listed_only (rr_Header a) (rr_Header a)
             (ReqHeader r') (ReqHeader r) config1 config); [done|done|].
  intros header Hin. split; [done|]. apply Hh. by rewrite <- Hm.
Qed.

(** A request is the same as its own recording. *)
Lemma sameRequest_recordRequest r config :
  sameRequest (recordRequest r) r config = true.
Proof.
  apply sameRequest_true. unfold recordRequest, peekBytes, peekForm. simpl.
  split_and!; auto.
  - unfold sameURL. by rewrite !bool_decide_eq_true_2.
  - apply sameHeaders_refl.
Qed.

(** The header values that [serveEpisode] adds under a key are the stored
    values of that key, in their order. *)
Lemma added_pairs (k : string) (l : list (string * list string)) (rest : list rw_call) :
  NoDup l.*1 →
  added k (flat_map (λ kv, HeaderAdd kv.1 <$> kv.2) l ++ rest)
  = default [] ((λ found, found.2.2) <$> list_find (λ kv, kv.1 = k) l)
    ++ added k rest.
Proof.
  induction l as [|[k0 vs] l IH]; simpl; [done|].
  intros [Hk0 Hnd]%NoDup_cons. rewrite <- app_assoc.
  assert (Hvs : ∀ tail, added k ((HeaderAdd k0 <$> vs) ++ tail)
                = (if bool_decide (k0 = k) then vs else []) ++ added k tail).
  { intros tail. induction vs as [|v vs IHvs].
    - simpl. by case_bool_decide.
    - rewrite fmap_cons. cbn [app added]. rewrite IHvs. by case_bool_decide. }
  rewrite Hvs, IH by done. destruct (decide (k0 = k)) as [Hk|Hk].
  - subst k0. rewrite bool_decide_eq_true_2 by done. simpl.
    destruct (list_find (λ kv, kv.1 = k) l) as [[i [k1 vs1]]|] eqn:Hfind; simpl.
    + apply list_find_Some in Hfind as (Hat & Hk1 & _). simpl in Hk1. subst k1.
      destruct Hk0. apply list_elem_of_fmap. exists (k, vs1).
      split; [done|]. by eapply list_elem_of_lookup_2.
    + done.
  - rewrite bool_decide_eq_false_2 by done. simpl.
    by destruct (list_find (λ kv, kv.1 = k) l) as [[i [k1 vs1]]|].
Qed.

Lemma added_addHeaders (k : string) (h : Header) (rest : list rw_call) :
  added k (addHeaders h ++ rest) = index h k ++ added k rest.
Proof.
  unfold addHeaders. rewrite added_pairs by apply NoDup_fst_map_to_list.
  f_equal. unfold index.
  destruct (list_find (λ kv, kv.1 = k) (map_to_list h)) as [[i [k1 vs1]]|] eqn:Hfind;
    simpl.
  - apply list_find_Some in Hfind as (Hat & Hk1 & _). simpl in Hk1. subst k1.
    apply list_elem_of_lookup_2, elem_of_map_to_list in Hat. by rewrite Hat.
  - destruct (h !! k) as [vs|] eqn:Hk; [|done].
    apply list_find_None in Hfind. rewrite Forall_forall in Hfind.
    apply elem_of_map_to_list in Hk. by destruct (Hfind _ Hk).
Qed.

Lemma statuses_addHeaders (h : Header) (rest : list rw_call) :
  statuses (addHeaders h ++ rest) = statuses rest.
Proof.
  unfold addHeaders. induction (map_to_list h) as [|[k vs] l IH]; simpl; [done|].
  rewrite <- app_assoc. induction vs as [|v vs IHvs]; simpl; done.
Qed.

Lemma written_addHeaders (h : Header) (rest : list rw_call) :
  written (addHeaders h ++ rest) = written rest.
Proof.
  unfold addHeaders. induction (map_to_list h) as [|[k vs] l IH]; simpl; [done|].
  rewrite <- app_assoc. induction vs as [|v vs IHvs]; simpl; done.
Qed.

(** [serveEpisode] writes the stored response: its header values, its status
    code and its body. *)
Lemma serveEpisode_verbatim (e : Episode) :
  (∀ k, added k (serveEpisode e) = index (rs_Header (Response e)) k) ∧
  statuses (serveEpisode e) = [rs_StatusCode (Response e)] ∧
  written (serveEpisode e) = contents (rs_Body (Response e)).
Proof.
  unfold serveEpisode. split_and!.
  - intros k. rewrite added_addHeaders. simpl. by rewrite app_nil_r.
  - by rewrite statuses_addHeaders.
  - rewrite written_addHeaders. simpl. by rewrite app_nil_r.
Qed.

End Pipeline.

(** ** Claims about the pipeline *)

Section PipelineClaims.
Import Store.

Implicit Types (proxy : Forward) (config : Config) (fs : FS) (r : HttpRequest).

(** C1, amended.  A request that was recorded under a cassette is followed
    by a request with the same method, the same target, the same values for
    the headers of [MatchHeaders], the same body and the same parsed form.
    The second one is answered from the episode just stored: its header
    values, its status code and its body are written as stored, the
    forwarding primitive is not called, whatever it would answer, and
    nothing is recorded. *)
Theorem replay_after_record proxy proxy' config fs r r' :
  recorded_under config r →
  same_exact config r r' →
  Form r' = Form r →
  let o1 := Proxy proxy config fs r in
  let o2 := Proxy proxy' (config' o1) (fs' o1) r' in
  let stored := mkEpisode (recordRequest r) (proxy (rewritten config r)) in
  Episodes (config' o1) = Episodes config ++ [stored] ∧
  calls o2 = serveEpisode stored ∧
  (∀ k, added k (calls o2) = index (rs_Header (Response stored)) k) ∧
  statuses (calls o2) = [rs_StatusCode (Response stored)] ∧
  written (calls o2) = contents (rs_Body (Response stored)) ∧
  forwarded o2 = [] ∧
  config' o2 = config' o1.
Proof.
  intros Hrec Hsame Hform. simpl.
  destruct (Proxy_records proxy config fs r Hrec) as [Hc1 _].
  set (o1 := Proxy proxy config fs r) in *.
  set (stored := mkEpisode (recordRequest r) (proxy (rewritten config r))) in *.
  destruct Hrec as (Hpath & Hname & Hnone & Hon).
  assert (Hpath' : ¬ control r').
  { unfold control. destruct Hsame as (_ & -> & _). done. }
  assert (Hfind : findEpisode r' (config' o1) = Some stored).
  { unfold findEpisode. rewrite Hc1. simpl.
    apply findEpisode_loop_Some. exists (Episodes config), []. split_and!.
    - done.
    - rewrite (sameRequest_ext _ r r' config) by done.
      apply sameRequest_recordRequest.
    - apply findEpisode_loop_None in Hnone.
      eapply Forall_impl; [exact Hnone|]. intros e He. simpl in He.
      by rewrite (sameRequest_ext _ r r' config). }
  assert (Ho2 : Proxy proxy' (config' o1) (fs' o1) r'
                = mkOutcome (serveEpisode stored) [] (config' o1) (fs' o1) None).
  { assert (Hname1 : Cassette (config' o1) ≠ "") by (by rewrite Hc1).
    rewrite Proxy_decision by done. unfold recoverHandler, cassetteHandler.
    rewrite bool_decide_eq_false_2 by done.
    by rewrite findEpisode_rewritten, Hfind. }
  rewrite Ho2. simpl.
  destruct (serveEpisode_verbatim stored) as (Hadded & Hstatus & Hbody).
  split_and!; try done. by rewrite Hc1.
Qed.

Lemma replay_after_record_witness :
  let r := Scenario.get "1" "curl/8" in
  let r' := Scenario.get "1" "Go-http-client/1.1" in
  let o1 := Proxy Scenario.upstream Scenario.fresh_accept Scenario.disk r in
  let o2 := Proxy Scenario.unreachable (config' o1) (fs' o1) r' in
  statuses (calls o2) = [200%Z] ∧
  written (calls o2) = Scenario.text "hello" ∧
  forwarded o2 = [].
Proof.
  pose proof (replay_after_record Scenario.upstream Scenario.unreachable
                Scenario.fresh_accept Scenario.disk
                (Scenario.get "1" "curl/8")
                (Scenario.get "1" "Go-http-client/1.1")) as H.
  simpl in H. destruct H as (_ & _ & _ & Hs & Hw & Hf & _).
  - split_and!; [by vm_compute|by vm_compute|by vm_compute|by vm_compute].
  - split_and!; try done. intros header Hin.
    apply list_elem_of_singleton in Hin. subst. by vm_compute.
  - done.
  - split_and!; [exact Hs|exact Hw|exact Hf].
Defined.

(** C1 as stated fails when the parsed forms differ.  With no header in
    [MatchHeaders], the three bytes [a=1] are posted as plain text and
    recorded; they are posted again to the same target as a URL-encoded
    form.  Method, target, selected headers and body are the same, but the
    live form now has the field [a], which the recorded form lacks: no
    episode is found and the request goes to the forwarding primitive. *)
Lemma replay_needs_same_form :
  recorded_under Scenario.fresh Scenario.plain_post ∧
  same_exact Scenario.fresh Scenario.plain_post Scenario.form_post ∧
  let o1 := Proxy Scenario.upstream Scenario.fresh Scenario.disk Scenario.plain_post in
  let o2 := Proxy Scenario.unreachable (config' o1) (fs' o1) Scenario.form_post in
  findEpisode Scenario.form_post (config' o1) = None ∧
  forwarded o2 = [rewritten (config' o1) Scenario.form_post] ∧
  statuses (calls o2) = [502%Z] ∧
  length (Episodes (config' o2)) = 2.
Proof.
  split; [unfold recorded_under; split_and!; by vm_compute|].
  split.
  - unfold same_exact. split_and!; try by vm_compute.
    intros header Hin. by apply elem_of_nil in Hin.
  - cbv zeta. split_and!; by vm_compute.
Qed.

(** C3, on an episode recorded with the fields [a] and [b]: a live form
    with the field [a] alone is the same request. *)
Lemma sameRequest_body_identity_witness :
  Form Scenario.form_post ≠ ∅ ∧
  rr_Form Scenario.recorded_form !! "b" = Some ["2"] ∧
  Form Scenario.form_post !! "b" = None ∧
  contents (rr_Body Scenario.recorded_form) ≠ Body Scenario.form_post ∧
  sameRequest Scenario.recorded_form Scenario.form_post Scenario.fresh = true.
Proof.
  assert (Hne : Form Scenario.form_post ≠ ∅).
  { intros H. apply (f_equal (lookup "a")) in H. vm_compute in H. discriminate H. }
  split_and!; [exact Hne|by vm_compute|by vm_compute| |].
  - intros H. vm_compute in H. discriminate H.
  - destruct (sameRequest_body_identity Scenario.recorded_form Scenario.form_post
                Scenario.fresh) as (Hfields & _ & _).
    apply (Hfields Hne). split_and!; [by vm_compute|by vm_compute|by vm_compute|].
    intros key vs Hkey.
    destruct (decide (key = "a")) as [->|Hother].
    + vm_compute in Hkey. injection Hkey as <-. by vm_compute.
    + unfold Scenario.form_post, Scenario.post in Hkey. simpl in Hkey.
      rewrite lookup_singleton_ne in Hkey by done. discriminate Hkey.
Defined.

(** C3 as stated fails on a target with a query string.  The JSON body of
    a POST to [/x?q=1] holds no form field, and still the form of the
    request is not empty: it has the parameter [q].  The bodies are not
    compared: the request recorded with the body [[1]] is the same as the
    live one with the body [[2]], which is answered from the cassette. *)
Lemma query_string_hides_the_body :
  let recorded := recordRequest (Scenario.json_post "[1]") in
  let live := Scenario.json_post "[2]" in
  let o1 := Proxy Scenario.upstream Scenario.fresh Scenario.disk
                  (Scenario.json_post "[1]") in
  let o2 := Proxy Scenario.unreachable (config' o1) (fs' o1) live in
  RawQuery (Url live) = "q=1" ∧
  Form live = {[ "q" := ["1"] ]} ∧
  contents (rr_Body recorded) = Scenario.text "[1]" ∧
  Body live = Scenario.text "[2]" ∧
  sameRequest recorded live Scenario.fresh = true ∧
  Request <$> Episodes (config' o1) = [recorded] ∧
  forwarded o2 = [] ∧
  statuses (calls o2) = [200%Z].
Proof. cbv zeta. split_and!; by vm_compute. Qed.

(** C6.  In the decision stage, with a cassette in the tray, no episode
    for the request, recording off and denial on, the answer is the status
    499 and the line "BetaMax: request not recorded, neither requested.";
    nothing is forwarded, and the configuration and the cassette files are
    as before.  With recording on, the request is forwarded and recorded
    instead, whether denial is on or not.  The same holds through the whole
    pipeline for a request that is not for the control endpoint. *)
Theorem unrecorded_request_denied proxy config fs r :
  (Cassette config ≠ "" → findEpisode r config = None →
   RecordNewEpisodes config = false → DenyUnrecordedRequests config = true →
     cassetteHandler proxy config fs r
     = mkOutcome [WriteHeader 499; Write denial] [] config fs None ∧
     (¬ control r →
      Proxy proxy config fs r
      = mkOutcome [WriteHeader 499; Write denial] [] config fs None)) ∧
  (Cassette config ≠ "" → findEpisode r config = None →
   RecordNewEpisodes config = true →
     cassetteHandler proxy config fs r = serveAndRecord r proxy config fs ∧
     forwarded (cassetteHandler proxy config fs r) = [r] ∧
     Episodes (config' (cassetteHandler proxy config fs r))
     = Episodes config ++ [mkEpisode (recordRequest r) (proxy r)]) ∧
  written [WriteHeader 499; Write denial]
  = list_byte_of_string ("BetaMax: request not recorded, neither requested." +:+ newline).
Proof.
  split_and!.
  - intros Hname Hnone Hoff Hdeny.
    assert (Hstage : ∀ q, findEpisode q config = None →
              cassetteHandler proxy config fs q
              = mkOutcome [WriteHeader 499; Write denial] [] config fs None).
    { intros q Hq. unfold cassetteHandler.
      rewrite bool_decide_eq_false_2 by done. by rewrite Hq, Hoff, Hdeny. }
    split; [by apply Hstage|].
    intros Hpath. rewrite Proxy_decision by done. unfold recoverHandler.
    rewrite Hstage; [done|]. by rewrite findEpisode_rewritten.
  - intros Hname Hnone Hon.
    assert (Hstage : cassetteHandler proxy config fs r = serveAndRecord r proxy config fs).
    { unfold cassetteHandler. rewrite bool_decide_eq_false_2 by done.
      by rewrite Hnone, Hon. }
    rewrite Hstage. unfold serveAndRecord.
    pose proof (writeEpisode_appends (mkEpisode (recordRequest r) (proxy r)) config fs)
      as Happ.
    destruct (writeEpisode _ config fs) as [[c1 fs1] p]. simpl in *. by subst.
  - reflexivity.
Qed.

Lemma unrecorded_request_denied_witness :
  Proxy Scenario.unreachable Scenario.replay_only Scenario.disk
        (Scenario.get "2" "curl/8")
  = mkOutcome [WriteHeader 499; Write denial] [] Scenario.replay_only Scenario.disk None.
Proof.
  destruct (unrecorded_request_denied Scenario.unreachable Scenario.replay_only
              Scenario.disk (Scenario.get "2" "curl/8")) as (Hdenied & _ & _).
  destruct Hdenied as [_ Hproxy]; [by vm_compute|by vm_compute|done|done|].
  apply Hproxy. unfold control. by vm_compute.
Defined.

End PipelineClaims.

(** ** Claims about loading, saving and the control endpoint *)

Section StoreClaims.
Import Store.

Implicit Types (proxy : Forward) (config : Config) (fs : FS) (r : HttpRequest).

(** The parts of C7 that hold: no cassette name, or no cassette file, gives
    no episode and no error; a file that cannot be read gives no episode and
    the error. *)
Lemma Load_without_cassette config fs :
  Cassette config = "" →
  ∃ c1, Load config fs = Ok (c1, None) ∧ Episodes c1 = [].
Proof.
  intros Hname. unfold Load. rewrite bool_decide_eq_true_2 by done. eauto.
Qed.

Lemma Load_new_cassette config fs :
  Cassette config ≠ "" → files fs !! CassetteFile config = None →
  Load config fs = Ok (set_Episodes config [], None).
Proof.
  intros Hname Hfile. unfold Load, IsNotExist.
  rewrite bool_decide_eq_false_2 by done. by rewrite bool_decide_eq_true_2.
Qed.

Lemma Load_unreadable config fs (err : string) :
  Cassette config ≠ "" → files fs !! CassetteFile config = Some (Unreadable err) →
  Load config fs = Ok (set_Episodes config [], Some err).
Proof.
  intros Hname Hfile. unfold Load, IsNotExist, ReadFile.
  rewrite bool_decide_eq_false_2 by done. rewrite Hfile.
  by rewrite bool_decide_eq_false_2.
Qed.

(** A file that is read: whatever [Unmarshal] decoded becomes the episodes,
    with or without an error. *)
Lemma Load_decoded config fs (d : data) (es : list Episode) :
  Cassette config ≠ "" → files fs !! CassetteFile config = Some (Readable d) →
  episodes (decoded d) = Ok es →
  Load config fs = Ok (set_Episodes config es, decode_err d).
Proof.
  intros Hname Hfile Hes. unfold Load, IsNotExist, ReadFile, Unmarshal.
  rewrite bool_decide_eq_false_2 by done. rewrite Hfile.
  rewrite bool_decide_eq_false_2 by done. by rewrite Hes.
Qed.

(** With a cassette named, [Load] changes the episodes and nothing else. *)
Lemma Load_named config fs (c1 : Config) (err : option string) :
  Cassette config ≠ "" → Load config fs = Ok (c1, err) →
  ∃ es, c1 = set_Episodes config es.
Proof.
  intros Hname. unfold Load. rewrite bool_decide_eq_false_2 by done.
  destruct (IsNotExist _ _); [intros [= <- _]; eauto|].
  destruct (ReadFile _ _) as [d|e]; [|intros [= <- _]; eauto].
  destruct (Unmarshal d) as [ws e]. destruct (episodes ws) as [es|]; [|done].
  intros [= <- _]. eauto.
Qed.

(** C7 (the code misses a case).  The cassette file is well-formed JSON
    in which a status code is written as a string.  [Unmarshal] returns the
    type error together with the episode it decoded around it, and [Load]
    stores what was decoded before it returns the error: the error is
    returned, and the episodes in memory are not empty. *)
Theorem Load_keeps_partly_decoded_episodes :
  ∃ c1,
    Load Scenario.fresh Scenario.mistyped_disk = Ok (c1, Some Scenario.type_error) ∧
    length (Episodes c1) = 1 ∧
    (rs_Body ∘ Response) <$> Episodes c1 = [Slice (Scenario.text "hello")].
Proof. eexists. split_and!; by vm_compute. Qed.

(** [writeEpisode] has no use for the error of [Save]. *)
Lemma writeEpisode_drops_error (e : Episode) config fs fs1 (err : option string) :
  Save (set_Episodes config (Episodes config ++ [e])) fs = Ok (fs1, err) →
  writeEpisode e config fs
  = (set_Episodes config (Episodes config ++ [e]), fs1, None).
Proof. unfold writeEpisode. by intros ->. Qed.

(** A recorded request whose [Save] fails is answered as if it had
    succeeded: the calls are those of the upstream's response, nothing
    panics, and the episode is in memory. *)
Lemma recording_ignores_save_error proxy config fs fs1 r (err : option string) :
  recorded_under config r →
  let stored := mkEpisode (recordRequest r) (proxy (rewritten config r)) in
  let appended := set_Episodes config (Episodes config ++ [stored]) in
  Save appended fs = Ok (fs1, err) →
  Proxy proxy config fs r
  = mkOutcome (ServeHTTP proxy (rewritten config r)) [rewritten config r]
              appended fs1 None.
Proof.
  intros (Hpath & Hname & Hnone & Hon). simpl. intros Hsave.
  rewrite Proxy_decision by done. unfold recoverHandler, cassetteHandler.
  rewrite bool_decide_eq_false_2 by done.
  rewrite findEpisode_rewritten, Hnone, Hon.
  unfold serveAndRecord. rewrite recordRequest_rewritten.
  by rewrite (writeEpisode_drops_error _ config fs fs1 err).
Qed.

(** C9 (the code misses the second half).  A request is recorded while
    every write to the cassette directory fails.  The episode is appended
    before [Save] runs, and the same request is replayed from memory
    afterwards.  But the error that [Save] returns is dropped by
    [writeEpisode]: the request gets the upstream's answer and no error is
    written or raised. *)
Theorem save_error_is_dropped :
  let r := Scenario.get "1" "curl/8" in
  let o := Proxy Scenario.upstream Scenario.fresh Scenario.full_disk r in
  Save (config' o) Scenario.full_disk
  = Ok (Scenario.full_disk, Some "no space left on device") ∧
  calls o = ServeHTTP Scenario.upstream (rewritten Scenario.fresh r) ∧
  statuses (calls o) = [200%Z] ∧
  panicked (cassetteHandler Scenario.upstream Scenario.fresh Scenario.full_disk
              (rewritten Scenario.fresh r)) = None ∧
  length (Episodes (config' o)) = 1 ∧
  fs' o = Scenario.full_disk ∧
  forwarded (Proxy Scenario.unreachable (config' o) (fs' o) r) = [].
Proof. cbv zeta. split_and!; by vm_compute. Qed.

(** The same on a file system where the write fails after the file was
    truncated: the request is answered as before and no error is raised;
    the cassette file is left without JSON in it, and the next [Load] of
    the cassette returns an error and no episode. *)
Example save_error_with_torn_file :
  let r := Scenario.get "1" "curl/8" in
  let o := Proxy Scenario.upstream Scenario.fresh Scenario.tearing_disk r in
  statuses (calls o) = [200%Z] ∧
  length (Episodes (config' o)) = 1 ∧
  files (fs' o) !! "cassettes/a.json" = Some Scenario.truncated ∧
  Load (config' o) (fs' o)
  = Ok (set_Episodes (config' o) [], Some "unexpected end of JSON input").
Proof. cbv zeta. split_and!; by vm_compute. Qed.

(** And for a cassette whose name has a directory that does not exist. *)
Example save_error_without_directory :
  let r := Scenario.get "1" "curl/8" in
  let config := Scenario.spelled "cassettes" "sub/a" in
  let o := Proxy Scenario.upstream config Scenario.flat_disk r in
  Save (config' o) Scenario.flat_disk
  = Ok (Scenario.flat_disk,
        Some "open cassettes/sub/a.json: no such file or directory") ∧
  statuses (calls o) = [200%Z] ∧
  length (Episodes (config' o)) = 1 ∧
  files (fs' o) = ∅.
Proof. cbv zeta. split_and!; by vm_compute. Qed.





(** C10, amended.  A GET to the control endpoint writes the configuration
    as one JSON object and changes nothing.  The object has the cassette
    name, the three toggles and the list of matched headers, and also every
    other exported field of [Config]: the target host, the cassette
    directory and, under [Episodes], the loaded episodes. *)
Theorem control_GET proxy config fs r :
  control r → Method r = "GET" →
  Proxy proxy config fs r
  = mkOutcome [Encode (ConfigJSON.config_json config)] [] config fs None ∧
  ∃ fields,
    ConfigJSON.config_json config = JSON.JObject fields ∧
    fields.*1 = ["TargetHost"; "CassetteDir"; "Episodes"; "cassette";
                 "record_new_episodes"; "deny_unrecorded_requests";
                 "rewrite_host_header"; "match_headers"] ∧
    JSON.field "cassette" fields = Some (JSON.jstring (Cassette config)) ∧
    JSON.field "record_new_episodes" fields
    = Some (JSON.JBool (RecordNewEpisodes config)) ∧
    JSON.field "deny_unrecorded_requests" fields
    = Some (JSON.JBool (DenyUnrecordedRequests config)) ∧
    JSON.field "rewrite_host_header" fields
    = Some (JSON.JBool (RewriteHostHeader config)) ∧
    JSON.field "match_headers" fields = Some (JSON.jstrings (MatchHeaders config)) ∧
    JSON.field "Episodes" fields
    = Some (JSON.JArray (ConfigJSON.episode_json <$> Episodes config)).
Proof.
  intros Hpath Hget. split.
  - rewrite Proxy_control by done. unfold recoverHandler, handleConfigRequest.
    by rewrite Hget.
  - eexists. split; [reflexivity|]. split_and!; reflexivity.
Qed.

Lemma control_GET_witness :
  calls (Proxy Scenario.unreachable Scenario.replay_only Scenario.disk
           (Scenario.control_request "GET" no_fields))
  = [Encode (ConfigJSON.config_json Scenario.replay_only)].
Proof.
  destruct (control_GET Scenario.unreachable Scenario.replay_only Scenario.disk
              (Scenario.control_request "GET" no_fields)) as [Ho _]; [done|done|].
  by rewrite Ho.
Defined.

(** C10 as stated fails on its last part: with one episode loaded, the
    object that a GET writes has that episode under [Episodes], and it
    differs from the object written when no episode is loaded. *)
Lemma control_GET_shows_episodes :
  let r := Scenario.control_request "GET" no_fields in
  let o := Proxy Scenario.unreachable Scenario.cafe_config Scenario.disk r in
  ∃ fields one,
    calls o = [Encode (JSON.JObject fields)] ∧
    JSON.field "Episodes" fields = Some (JSON.JArray [one]) ∧
    one = ConfigJSON.episode_json (Scenario.an_episode "text/plain" Scenario.cafe) ∧
    ConfigJSON.config_json Scenario.cafe_config
    ≠ ConfigJSON.config_json (set_Episodes Scenario.cafe_config []).
Proof.
  cbv zeta. eexists _, _. split_and!; [reflexivity|reflexivity|reflexivity|].
  intros H. vm_compute in H. discriminate H.
Qed.

End StoreClaims.

(** * Further properties of the code *)

(** ** The matcher and the lookup *)

Section MatcherMore.

Implicit Types (recorded live : Header) (config : Config) (r : HttpRequest).

(** X1.  [sameHeaders] accepts exactly when every header of [MatchHeaders]
    is either without value on the live request or has the recorded values
    there; it rejects exactly when some listed header has values on the live
    request that are not the recorded ones. *)
Theorem sameHeaders_decides recorded live config :
  (sameHeaders recorded live config = true ↔
   Forall (λ header, index live header = [] ∨
                     index live header = index recorded header)
          (MatchHeaders config)) ∧
  (sameHeaders recorded live config = false ↔
   Exists (λ header, index live header ≠ [] ∧
                     index live header ≠ index recorded header)
          (MatchHeaders config)).
Proof.
  assert (Htrue : sameHeaders recorded live config = true ↔
                  Forall (λ header, index live header = [] ∨
                                    index live header = index recorded header)
                         (MatchHeaders config)).
  { rewrite sameHeaders_true, Forall_forall. done. }
  split; [exact Htrue|].
  rewrite <- not_true_iff_false, Htrue. split.
  - intros Hnot. apply not_Forall_Exists in Hnot; [|apply _].
    eapply Exists_impl; [exact Hnot|]. simpl. intros header Hh. split.
    + intros Hnil. apply Hh. by left.
    + intros Hsame. apply Hh. by right.
  - intros Hex Hall. apply Exists_exists in Hex as (header & Hin & Hne & Hdiff).
    rewrite Forall_forall in Hall. destruct (Hall header Hin); done.
Qed.

(** X2.  The result of [sameHeaders] depends on the two header maps only
    through the values of the headers listed in [MatchHeaders]. *)
Theorem sameHeaders_depends_on_listed recorded recorded' live live' config :
  (∀ header, header ∈ MatchHeaders config →
     index recorded header = index recorded' header ∧
     index live header = index live' header) →
  sameHeaders recorded live config = sameHeaders recorded' live' config.
Proof. intros Hsame. by apply sameHeaders_listed_only. Qed.

Lemma sameHeaders_depends_on_listed_witness :
  sameHeaders (ReqHeader (Scenario.get "1" "curl/8"))
              (ReqHeader (Scenario.get "1" "curl/8")) Scenario.fresh_accept
  = sameHeaders (ReqHeader (Scenario.get "1" "curl/8"))
                (ReqHeader (Scenario.get "1" "Go-http-client/1.1"))
                Scenario.fresh_accept.
Proof.
  apply (sameHeaders_depends_on_listed _ _ _ _ Scenario.fresh_accept).
  intros header Hin. apply list_elem_of_singleton in Hin. subst header.
  split; by vm_compute.
Defined.

(** X3.  An episode that [findEpisode] returns is one of the episodes of
    the configuration, and its recorded request has the method, the path,
    the raw query and the fragment of the live request, the values of the
    live request for every field of the live form, and the body of the live
    request when the live form is empty. *)
Theorem findEpisode_sound r config (e : Episode) :
  findEpisode r config = Some e →
  e ∈ Episodes config ∧
  rr_Method (Request e) = Method r ∧
  Path (rr_URL (Request e)) = Path (Url r) ∧
  RawQuery (rr_URL (Request e)) = RawQuery (Url r) ∧
  Fragment (rr_URL (Request e)) = Fragment (Url r) ∧
  (∀ key vs, Form r !! key = Some vs → index (rr_Form (Request e)) key = vs) ∧
  (Form r = ∅ → contents (rr_Body (Request e)) = Body r).
Proof.
  intros Hfind. apply findEpisode_loop_Some in Hfind
    as (before & after & Heq & Hsame & _).
  apply sameRequest_true in Hsame as (Hm & Hu & _ & Hf & Hb).
  unfold sameURL in Hu. apply andb_true_iff in Hu as [Hu Hfr].
  apply andb_true_iff in Hu as [Hp Hq].
  apply bool_decide_eq_true_1 in Hp, Hq, Hfr.
  split_and!; try done.
  - rewrite Heq. apply elem_of_app. right. by left.
  - intros key vs Hkey. rewrite Hf by eauto. unfold index. by rewrite Hkey.
Qed.

Lemma findEpisode_sound_witness :
  Tray.first_episode ∈ Episodes Tray.recorded_once ∧
  rr_Method (Request Tray.first_episode) = "GET" ∧
  RawQuery (rr_URL (Request Tray.first_episode)) = "q=1".
Proof.
  destruct (findEpisode_sound (Scenario.get "1" "Go-http-client/1.1")
              Tray.recorded_once Tray.first_episode)
    as (Hin & Hm & _ & Hq & _); [by vm_compute|].
  split_and!; [exact Hin|exact Hm|exact Hq].
Defined.

Lemma findEpisode_loop_config r config config1 (es : list Episode) :
  MatchHeaders config1 = MatchHeaders config →
  findEpisode_loop r config1 es = findEpisode_loop r config es.
Proof.
  intros Hm. induction es as [|e es IH]; simpl; [done|].
  assert (Hsame : sameRequest (Request e) r config1 = sameRequest (Request e) r config).
  { unfold sameRequest.
    by rewrite (sameHeaders_listed_only _ (rr_Header (Request e)) _ (ReqHeader r)
                  config1 config). }
  by rewrite Hsame, IH.
Qed.

Lemma findEpisode_loop_app r config (es : list Episode) (e : Episode) :
  findEpisode_loop r config (es ++ [e])
  = match findEpisode_loop r config es with
    | Some found => Some found
    | None => if sameRequest (Request e) r config then Some e else None
    end.
Proof.
  induction es as [|e0 es IH]; simpl; [done|].
  by destruct (sameRequest (Request e0) r config).
Qed.

Lemma findEpisode_after_write r (e : Episode) config fs :
  findEpisode r (writeEpisode e config fs).1.1
  = match findEpisode r config with
    | Some found => Some found
    | None => if sameRequest (Request e) r config then Some e else None
    end.
Proof.
  rewrite writeEpisode_appends. unfold findEpisode. simpl.
  rewrite (findEpisode_loop_config r config) by done.
  apply findEpisode_loop_app.
Qed.

(** X4.  Once [writeEpisode] has stored the episode that [recordRequest]
    makes of a request, [findEpisode] finds an episode for that request,
    whatever the configuration held before and whatever [Save] did. *)
Theorem recorded_request_is_found r (response : RecordedResponse) config
        (fs : Store.FS) :
  is_Some (findEpisode r
             (writeEpisode (mkEpisode (recordRequest r) response) config fs).1.1).
Proof.
  rewrite findEpisode_after_write. simpl.
  destruct (findEpisode r config); [by eauto|].
  rewrite sameRequest_recordRequest. by eauto.
Qed.

(** X5.  A request that finds an episode finds the same one after
    [writeEpisode] has appended another: recording never changes what is
    replayed for the requests already matched. *)
Theorem recording_keeps_matches r (e new : Episode) config (fs : Store.FS) :
  findEpisode r config = Some e →
  findEpisode r (writeEpisode new config fs).1.1 = Some e.
Proof. intros Hfind. by rewrite findEpisode_after_write, Hfind. Qed.

Lemma recording_keeps_matches_witness :
  findEpisode (Scenario.get "1" "Go-http-client/1.1")
    (writeEpisode (Scenario.an_episode "image/png" [x89; x50])
                  Tray.recorded_once Tray.recorded_disk).1.1
  = Some Tray.first_episode.
Proof.
  apply (recording_keeps_matches (Scenario.get "1" "Go-http-client/1.1")).
  by vm_compute.
Defined.

End MatcherMore.

(** ** The decision stage and the stages around it *)

Section StagesMore.
Import Store.

Implicit Types (proxy : Forward) (config : Config) (fs : FS) (r : HttpRequest).

Lemma addHeaders_calls (h : Header) :
  Forall (λ c, ∃ k v, c = HeaderAdd k v ∧ v ∈ index h k) (addHeaders h) ∧
  length (addHeaders h) = sum_list (length <$> (map_to_list h).*2).
Proof.
  unfold addHeaders.
  assert (Hin : ∀ kv, kv ∈ map_to_list h → index h kv.1 = kv.2).
  { intros [k vs] Hkv. apply elem_of_map_to_list in Hkv. unfold index. simpl.
    by rewrite Hkv. }
  induction (map_to_list h) as [|[k vs] l IH]; simpl; [by split|].
  destruct IH as [IHall IHlen]; [intros kv Hkv; apply Hin; by right|].
  split.
  - apply Forall_app. split; [|done].
    apply Forall_fmap, Forall_forall. intros v Hv. simpl.
    exists k, v. split; [done|].
    assert (Hk : index h k = vs) by (apply (Hin (k, vs)); by left).
    by rewrite Hk.
  - rewrite length_app, length_fmap, IHlen. done.
Qed.

(** X6.  [serveEpisode] first adds the stored header values, one [Add] per
    value and nothing else, then writes the stored status code, then the
    stored body, each once and in this order. *)
Theorem serveEpisode_order (e : Episode) :
  ∃ adds,
    serveEpisode e
    = adds ++ [WriteHeader (rs_StatusCode (Response e)); Write (contents (rs_Body (Response e)))] ∧
    Forall (λ c, ∃ k v, c = HeaderAdd k v ∧ v ∈ index (rs_Header (Response e)) k)
           adds ∧
    length adds = sum_list (length <$> (map_to_list (rs_Header (Response e))).*2).
Proof.
  exists (addHeaders (rs_Header (Response e))). split; [done|].
  apply addHeaders_calls.
Qed.

(** X7.  A request that is not for the control endpoint is passed to the
    forwarding primitive, after the host-rewrite stage, and nothing is
    recorded or changed, in two cases: when no cassette is in the tray,
    whatever the toggles and the episodes in memory; and when a cassette is
    in the tray, no episode matches, and neither recording nor denial is
    on. *)
Theorem passthrough_unrecorded proxy config fs r :
  ¬ control r →
  Cassette config = "" ∨
  (findEpisode r config = None ∧ RecordNewEpisodes config = false ∧
   DenyUnrecordedRequests config = false) →
  Proxy proxy config fs r
  = mkOutcome (ServeHTTP proxy (rewritten config r)) [rewritten config r]
              config fs None.
Proof.
  intros Hpath Hcase. rewrite Proxy_decision by done.
  unfold recoverHandler, cassetteHandler.
  destruct Hcase as [Hname|(Hnone & Hrec & Hdeny)].
  - by rewrite bool_decide_eq_true_2.
  - case_bool_decide; [done|].
    by rewrite findEpisode_rewritten, Hnone, Hrec, Hdeny.
Qed.

Lemma passthrough_unrecorded_witness :
  Proxy Scenario.upstream Tray.empty Scenario.disk (Scenario.get "1" "curl/8")
  = mkOutcome (ServeHTTP Scenario.upstream
                 (rewritten Tray.empty (Scenario.get "1" "curl/8")))
              [rewritten Tray.empty (Scenario.get "1" "curl/8")]
              Tray.empty Scenario.disk None ∧
  Proxy Scenario.upstream Tray.permissive Scenario.disk (Scenario.get "1" "curl/8")
  = mkOutcome (ServeHTTP Scenario.upstream
                 (rewritten Tray.permissive (Scenario.get "1" "curl/8")))
              [rewritten Tray.permissive (Scenario.get "1" "curl/8")]
              Tray.permissive Scenario.disk None.
Proof.
  split.
  - apply (passthrough_unrecorded Scenario.upstream Tray.empty);
      [by vm_compute|by left].
  - apply (passthrough_unrecorded Scenario.upstream Tray.permissive);
      [by vm_compute|right; by vm_compute].
Defined.

(** X8.  The decision stage either leaves the configuration and the files
    as they are and does not panic, or it ran with recording on, forwarded
    the request, and the configuration differs by one episode appended after
    the others: the request as [recordRequest] captures it with the response
    of the forwarding primitive. *)
Theorem decision_stage_only_appends proxy config fs r :
  let o := cassetteHandler proxy config fs r in
  (config' o = config ∧ fs' o = fs ∧ panicked o = None) ∨
  (RecordNewEpisodes config = true ∧
   forwarded o = [r] ∧
   config' o = set_Episodes config
                 (Episodes config ++ [mkEpisode (recordRequest r) (proxy r)])).
Proof.
  simpl. unfold cassetteHandler.
  case_bool_decide; [by left|].
  destruct (findEpisode r config); [by left|].
  destruct (RecordNewEpisodes config) eqn:Hrec.
  - right. unfold serveAndRecord.
    pose proof (writeEpisode_appends (mkEpisode (recordRequest r) (proxy r)) config fs)
      as Happ.
    destruct (writeEpisode _ config fs) as [[c1 fs1] p]. simpl in *. by subst.
  - left. by destruct (DenyUnrecordedRequests config).
Qed.

(** X9.  With a cassette in the tray, a request that finds an episode is
    answered from it through the whole pipeline, whatever the toggles and
    whatever the forwarding primitive would do; nothing changes, so the same
    request gets the same answer again. *)
Theorem replay_is_stable proxy proxy' config fs r (e : Episode) :
  ¬ control r → Cassette config ≠ "" → findEpisode r config = Some e →
  Proxy proxy config fs r = mkOutcome (serveEpisode e) [] config fs None ∧
  Proxy proxy' config fs r = Proxy proxy config fs r.
Proof.
  intros Hpath Hname Hfind.
  assert (Hany : ∀ p, Proxy p config fs r
                      = mkOutcome (serveEpisode e) [] config fs None).
  { intros p. rewrite Proxy_decision by done. unfold recoverHandler, cassetteHandler.
    rewrite bool_decide_eq_false_2 by done. by rewrite findEpisode_rewritten, Hfind. }
  by rewrite !Hany.
Qed.

Lemma replay_is_stable_witness :
  Proxy Scenario.unreachable Tray.recorded_once Tray.recorded_disk
        (Scenario.get "1" "Go-http-client/1.1")
  = mkOutcome (serveEpisode Tray.first_episode) [] Tray.recorded_once
              Tray.recorded_disk None.
Proof.
  apply (replay_is_stable Scenario.unreachable Scenario.upstream); by vm_compute.
Defined.

(** X10.  A request for the control endpoint is never handed to the
    forwarding primitive.  Any other request is handed to it at most once,
    and what is handed over is the request itself with its host replaced by
    the target host when [RewriteHostHeader] is on. *)
Theorem forwarded_requests proxy config fs r :
  (control r → forwarded (Proxy proxy config fs r) = []) ∧
  (forwarded (Proxy proxy config fs r) = [] ∨
   forwarded (Proxy proxy config fs r) = [rewritten config r]) ∧
  ReqHost (rewritten config r)
  = (if RewriteHostHeader config then TargetHost config else ReqHost r) ∧
  Method (rewritten config r) = Method r ∧
  Url (rewritten config r) = Url r ∧
  ReqHeader (rewritten config r) = ReqHeader r ∧
  Body (rewritten config r) = Body r ∧
  Form (rewritten config r) = Form r ∧
  RequestURI (rewritten config r) = RequestURI r.
Proof.
  split_and!; try (unfold rewritten; by destruct (RewriteHostHeader config)).
  - intros Hpath. rewrite Proxy_control by done.
    unfold recoverHandler, handleConfigRequest.
    repeat case_bool_decide; simpl; try done.
    + by destruct (Load _ fs) as [[c1 [err|]]|msg].
    + by destruct (Reset config fs) as [[c1 fs1] [err|]].
  - destruct (decide (control r)) as [Hpath|Hpath].
    + left. rewrite Proxy_control by done.
      unfold recoverHandler, handleConfigRequest.
      repeat case_bool_decide; simpl; try done.
      * by destruct (Load _ fs) as [[c1 [err|]]|msg].
      * by destruct (Reset config fs) as [[c1 fs1] [err|]].
    + rewrite Proxy_decision by done. unfold recoverHandler.
      assert (Hstage : forwarded (cassetteHandler proxy config fs (rewritten config r)) = []
                       ∨ forwarded (cassetteHandler proxy config fs (rewritten config r))
                         = [rewritten config r]).
      { unfold cassetteHandler. case_bool_decide; [by right|].
        destruct (findEpisode _ config); [by left|].
        destruct (RecordNewEpisodes config).
        - right. unfold serveAndRecord.
          by destruct (writeEpisode _ config fs) as [[c1 fs1] p].
        - destruct (DenyUnrecordedRequests config); [by left|by right]. }
      by destruct (panicked _).
Qed.

End StagesMore.

(** ** The control endpoint and the cassette store *)

Section StoreMore.
Import Store.

Implicit Types (proxy : Forward) (config : Config) (fs : FS) (r : HttpRequest).

Lemma Proxy_POST_outcome proxy config fs r :
  control r → Method r = "POST" →
  Proxy proxy config fs r
  = match Load (ConfigJSON.Decode (JsonBody r) config) fs with
    | Ok (c1, None) => mkOutcome [] [] c1 fs None
    | Ok (c1, Some err) => mkOutcome [Error (failure err r) 500] [] c1 fs None
    | Panic msg =>
        mkOutcome [Error msg 500] [] (ConfigJSON.Decode (JsonBody r) config) fs None
    end.
Proof.
  intros Hpath Hpost. rewrite Proxy_control by done.
  unfold recoverHandler, handleConfigRequest. rewrite Hpost.
  rewrite bool_decide_eq_false_2 by done. rewrite bool_decide_eq_true_2 by done.
  by destruct (Load _ fs) as [[c1 [err|]]|msg].
Qed.

Lemma Proxy_DELETE_outcome proxy config fs r :
  control r → Method r = "DELETE" →
  Proxy proxy config fs r
  = match Reset config fs with
    | (c1, fs1, None) => mkOutcome [] [] c1 fs1 None
    | (c1, fs1, Some err) => mkOutcome [Error (failure err r) 500] [] c1 fs1 None
    end.
Proof.
  intros Hpath Hdel. rewrite Proxy_control by done.
  unfold recoverHandler, handleConfigRequest. rewrite Hdel.
  rewrite !bool_decide_eq_false_2 by done. rewrite bool_decide_eq_true_2 by done.
  by destruct (Reset config fs) as [[c1 fs1] [err|]].
Qed.

Lemma Load_keeps_names config fs (c1 : Config) (err : option string) :
  Load config fs = Ok (c1, err) →
  Cassette c1 = Cassette config ∧ MatchHeaders c1 = MatchHeaders config ∧
  TargetHost c1 = TargetHost config ∧ CassetteDir c1 = CassetteDir config.
Proof.
  destruct (decide (Cassette config = "")) as [Hname|Hname].
  - unfold Load. rewrite bool_decide_eq_true_2 by done. by intros [= <- _].
  - intros Hload. by apply Load_named in Hload as [es ->].
Qed.


Lemma Load_ignores_episodes config fs (es : list Episode) :
  Load (set_Episodes config es) fs = Load config fs.
Proof.
  unfold Load, CassetteFile. simpl.
  case_bool_decide; [done|].
  destruct (IsNotExist _ _); [done|].
  destruct (ReadFile _ _) as [d|err]; [|done].
  destruct (Unmarshal d) as [ws err]. by destruct (episodes ws).
Qed.

(** X11.  A POST to the control endpoint that names a cassette whose file
    exists and cannot be read is answered with the status 500 and the error
    of the read followed by the method and the request URI; the supplied
    fields stay applied and the episodes in memory are emptied. *)
Theorem POST_unreadable_cassette proxy config fs r (err : string) :
  control r → Method r = "POST" →
  Cassette (ConfigJSON.Decode (JsonBody r) config) ≠ "" →
  files fs !! CassetteFile (ConfigJSON.Decode (JsonBody r) config)
  = Some (Unreadable err) →
  Proxy proxy config fs r
  = mkOutcome [Error (failure err r) 500] []
              (set_Episodes (ConfigJSON.Decode (JsonBody r) config) []) fs None.
Proof.
  intros Hpath Hpost Hname Hfile. rewrite Proxy_POST_outcome by done.
  by rewrite (Load_unreadable _ fs err).
Qed.

Lemma POST_unreadable_cassette_witness :
  Proxy Scenario.upstream Tray.recorded_once Tray.unreadable_disk
        (Scenario.control_request "POST" Tray.insert_a)
  = mkOutcome
      [Error "permission denied for POST /__betamax__/config" 500] []
      (set_Episodes Tray.recorded_once []) Tray.unreadable_disk None.
Proof.
  apply (POST_unreadable_cassette Scenario.upstream Tray.recorded_once
           Tray.unreadable_disk (Scenario.control_request "POST" Tray.insert_a)
           "permission denied"); by vm_compute.
Defined.

(** X12.  After a POST to the control endpoint the cassette name, the
    matched headers, the target host and the cassette directory are the ones
    the body supplies, or the previous ones where it supplies none, whether
    [Load] succeeds, returns an error or panics; the cassette files are not
    touched and nothing is forwarded. *)
Theorem POST_sets_names proxy config fs r :
  control r → Method r = "POST" →
  let o := Proxy proxy config fs r in
  Cassette (config' o) = default (Cassette config) (f_cassette (JsonBody r)) ∧
  MatchHeaders (config' o)
  = default (MatchHeaders config) (f_match_headers (JsonBody r)) ∧
  TargetHost (config' o) = default (TargetHost config) (f_TargetHost (JsonBody r)) ∧
  CassetteDir (config' o) = default (CassetteDir config) (f_CassetteDir (JsonBody r)) ∧
  fs' o = fs ∧
  forwarded o = [].
Proof.
  intros Hpath Hpost. simpl. rewrite Proxy_POST_outcome by done.
  destruct (Load _ fs) as [[c1 err]|msg] eqn:Hload.
  - apply Load_keeps_names in Hload as (Hc & Hm & Ht & Hd).
    by destruct err; simpl; rewrite Hc, Hm, Ht, Hd.
  - done.
Qed.

Lemma POST_sets_names_witness :
  Cassette (config' (Proxy Scenario.upstream Tray.empty Tray.recorded_disk
                       (Scenario.control_request "POST" Tray.insert_a))) = "a".
Proof.
  destruct (POST_sets_names Scenario.upstream Tray.empty Tray.recorded_disk
              (Scenario.control_request "POST" Tray.insert_a)) as [Hc _];
    [done|done|].
  exact Hc.
Defined.

(** X13.  A POST that names a cassette whose file is read but holds a body
    that is not a JSON string makes [Load] panic: the answer is the status
    500 with the message of the panic, the supplied fields stay applied, and
    the episodes that were in memory are still there. *)
Theorem POST_panic_keeps_episodes proxy config fs r (d : data) (msg : string) :
  control r → Method r = "POST" →
  Cassette (ConfigJSON.Decode (JsonBody r) config) ≠ "" →
  files fs !! CassetteFile (ConfigJSON.Decode (JsonBody r) config)
  = Some (Readable d) →
  episodes (decoded d) = Panic msg →
  Proxy proxy config fs r
  = mkOutcome [Error msg 500] [] (ConfigJSON.Decode (JsonBody r) config) fs None ∧
  Episodes (ConfigJSON.Decode (JsonBody r) config)
  = default (Episodes config) (f_Episodes (JsonBody r)).
Proof.
  intros Hpath Hpost Hname Hfile Hes. split; [|done].
  rewrite Proxy_POST_outcome by done.
  unfold Load, IsNotExist, ReadFile, Unmarshal.
  rewrite bool_decide_eq_false_2 by done. rewrite Hfile.
  rewrite bool_decide_eq_false_2 by done. by rewrite Hes.
Qed.

Lemma POST_panic_keeps_episodes_witness :
  let o := Proxy Scenario.upstream Tray.recorded_once Tray.null_body_disk
                 (Scenario.control_request "POST" Scenario.insert_b) in
  Cassette (config' o) = "b" ∧
  Episodes (config' o) = Episodes Tray.recorded_once ∧
  calls o = [Error "interface conversion: interface {} is nil, not string" 500].
Proof.
  cbv zeta.
  destruct (POST_panic_keeps_episodes Scenario.upstream Tray.recorded_once
              Tray.null_body_disk
              (Scenario.control_request "POST" Scenario.insert_b)
              Tray.null_body "interface conversion: interface {} is nil, not string")
    as [Ho Hes]; [done|done|by vm_compute|by vm_compute|by vm_compute|].
  rewrite Ho. split_and!; [by vm_compute|exact Hes|done].
Defined.

(** X14.  A DELETE to the control endpoint with no cassette in the tray is
    answered with the status 500 and the message "Cassete is not inserted"
    followed by the method and the request URI; nothing changes. *)
Theorem DELETE_without_cassette proxy config fs r :
  control r → Method r = "DELETE" → Cassette config = "" →
  Proxy proxy config fs r
  = mkOutcome [Error (failure "Cassete is not inserted" r) 500] [] config fs None.
Proof.
  intros Hpath Hdel Hname. rewrite Proxy_DELETE_outcome by done.
  unfold Reset. by rewrite bool_decide_eq_true_2.
Qed.

Lemma DELETE_without_cassette_witness :
  Proxy Scenario.upstream Tray.empty Tray.recorded_disk
        (Scenario.control_request "DELETE" no_fields)
  = mkOutcome
      [Error "Cassete is not inserted for DELETE /__betamax__/config" 500] []
      Tray.empty Tray.recorded_disk None.
Proof.
  apply (DELETE_without_cassette Scenario.upstream Tray.empty Tray.recorded_disk
           (Scenario.control_request "DELETE" no_fields)); by vm_compute.
Defined.

(** X15.  A DELETE with a cassette in the tray, on a file system that takes
    the removal of the cassette file, writes nothing to the response,
    empties the episodes in memory and leaves every other setting, and
    removes the cassette file and no other file; a [Load] that follows finds
    a fresh cassette: no episode and no error. *)
Theorem DELETE_erases proxy config fs r :
  control r → Method r = "DELETE" → Cassette config ≠ "" →
  write_error fs (CassetteFile config) = None →
  let o := Proxy proxy config fs r in
  calls o = [] ∧
  forwarded o = [] ∧
  config' o = set_Episodes config [] ∧
  files (fs' o) = delete (CassetteFile config) (files fs) ∧
  write_error (fs' o) = write_error fs ∧
  torn (fs' o) = torn fs ∧
  Load (config' o) (fs' o) = Ok (config' o, None).
Proof.
  intros Hpath Hdel Hname Hwrite. simpl. rewrite Proxy_DELETE_outcome by done.
  assert (Hreset : ∃ fs1, Reset config fs = (set_Episodes config [], fs1, None) ∧
                          files fs1 = delete (CassetteFile config) (files fs) ∧
                          write_error fs1 = write_error fs ∧
                          torn fs1 = torn fs).
  { unfold Reset, IsNotExist, Remove. rewrite bool_decide_eq_false_2 by done.
    case_bool_decide as Hfile.
    - exists fs. split_and!; [done| |done|done]. by rewrite delete_id.
    - rewrite Hwrite. eexists. split_and!; done. }
  destruct Hreset as (fs1 & -> & Hfiles & Hw & Ht). simpl. split_and!; try done.
  rewrite Load_ignores_episodes. apply Load_new_cassette; [done|].
  by rewrite Hfiles, lookup_delete_eq.
Qed.

Lemma DELETE_erases_witness :
  let o := Proxy Scenario.upstream Tray.recorded_once Tray.recorded_disk
                 (Scenario.control_request "DELETE" no_fields) in
  Episodes (config' o) = [] ∧
  files (fs' o) !! "cassettes/a.json" = None ∧
  Load (config' o) (fs' o) = Ok (config' o, None).
Proof.
  cbv zeta.
  destruct (DELETE_erases Scenario.upstream Tray.recorded_once Tray.recorded_disk
              (Scenario.control_request "DELETE" no_fields))
    as (_ & _ & Hc & Hf & _ & _ & Hload); [done|done|by vm_compute|by vm_compute|].
  split_and!; [by rewrite Hc|by rewrite Hf|exact Hload].
Defined.

(** X16.  A DELETE whose file removal fails is answered with the status 500
    and the error of the removal, and the cassette file stays; the episodes
    in memory were emptied before the removal was tried and stay empty. *)
Theorem DELETE_removal_fails proxy config fs r (err : string) :
  control r → Method r = "DELETE" → Cassette config ≠ "" →
  write_error fs (CassetteFile config) = Some err →
  is_Some (files fs !! CassetteFile config) →
  Proxy proxy config fs r
  = mkOutcome [Error (failure err r) 500] [] (set_Episodes config []) fs None.
Proof.
  intros Hpath Hdel Hname Hwrite [f Hfile]. rewrite Proxy_DELETE_outcome by done.
  unfold Reset, IsNotExist, Remove. rewrite bool_decide_eq_false_2 by done.
  rewrite bool_decide_eq_false_2 by (by rewrite Hfile). by rewrite Hwrite.
Qed.

Lemma DELETE_removal_fails_witness :
  let o := Proxy Scenario.upstream Tray.recorded_once Tray.stuck_disk
                 (Scenario.control_request "DELETE" no_fields) in
  calls o = [Error "read-only file system for DELETE /__betamax__/config" 500] ∧
  Episodes (config' o) = [] ∧
  fs' o = Tray.stuck_disk.
Proof.
  cbv zeta.
  rewrite (DELETE_removal_fails Scenario.upstream Tray.recorded_once Tray.stuck_disk
             (Scenario.control_request "DELETE" no_fields) "read-only file system");
    [by vm_compute|done|done|by vm_compute|done|].
  vm_compute. by eexists.
Defined.

(** X17.  A request to the control endpoint whose method is not GET, POST
    or DELETE, in exactly this spelling, is answered with the status 405 and
    a line naming the method; nothing changes and nothing is forwarded. *)
Theorem method_not_allowed proxy config fs r :
  control r →
  Method r ≠ "GET" → Method r ≠ "POST" → Method r ≠ "DELETE" →
  Proxy proxy config fs r
  = mkOutcome [WriteHeader 405; Write (not_allowed r)] [] config fs None ∧
  not_allowed r
  = list_byte_of_string
      ("BetaMax: method " +:+ Method r +:+ " is not allowed." +:+ newline).
Proof.
  intros Hpath Hget Hpost Hdel. split; [|done]. rewrite Proxy_control by done.
  unfold recoverHandler, handleConfigRequest.
  by rewrite !bool_decide_eq_false_2.
Qed.

Lemma method_not_allowed_witness :
  Proxy Scenario.upstream Tray.recorded_once Tray.recorded_disk
        (Scenario.control_request "get" no_fields)
  = mkOutcome
      [WriteHeader 405;
       Write (Scenario.text ("BetaMax: method get is not allowed." +:+ newline))]
      [] Tray.recorded_once Tray.recorded_disk None.
Proof.
  destruct (method_not_allowed Scenario.upstream Tray.recorded_once
              Tray.recorded_disk (Scenario.control_request "get" no_fields))
    as [Ho _]; [done|done|done|done|].
  exact Ho.
Defined.

(** X18.  [Load] never merges: its result does not depend on the episodes
    in memory; and loading again from the same files gives the same
    configuration and the same error. *)
Theorem Load_replaces_episodes config fs :
  (∀ es, Load (set_Episodes config es) fs = Load config fs) ∧
  (∀ c1 err, Load config fs = Ok (c1, err) → Load c1 fs = Ok (c1, err)).
Proof.
  split; [intros es; apply Load_ignores_episodes|].
  intros c1 err Hload.
  destruct (decide (Cassette config = "")) as [Hname|Hname].
  - revert Hload. unfold Load. rewrite bool_decide_eq_true_2 by done.
    intros [= <- <-]. simpl. by rewrite bool_decide_eq_true_2.
  - pose proof Hload as Hsame. apply Load_named in Hsame as [es ->]; [|done].
    by rewrite Load_ignores_episodes.
Qed.




Lemma writeableEpisode_keeps (e : Episode) (w : WriteableEpisode) :
  writeableEpisode e = Ok w →
  wq_Method (w_Request w) = rr_Method (Request e) ∧
  wq_URL (w_Request w) = rr_URL (Request e) ∧
  wq_Header (w_Request w) = rr_Header (Request e) ∧
  wq_Form (w_Request w) = rr_Form (Request e) ∧
  ws_StatusCode (w_Response w) = rs_StatusCode (Response e) ∧
  ws_Header (w_Response w) = rs_Header (Response e) ∧
  written_as (rr_Header (Request e)) (rr_Body (Request e)) (wq_Body (w_Request w)) ∧
  written_as (rs_Header (Response e)) (rs_Body (Response e)) (ws_Body (w_Response w)).
Proof.
  unfold writeableEpisode, writableBodyForContentType.
  destruct (IsText (rr_Header (Request e))) as [tq|] eqn:Hq; [|done].
  destruct (IsText (rs_Header (Response e))) as [ts|] eqn:Hs;
    [|by destruct tq].
  destruct tq, ts; simpl; intros [= <-]; simpl; split_and!; try done;
    by rewrite ?list_byte_of_string_of_list_byte.
Qed.

(** X20.  When [writeableEpisodes] returns, there is one writeable episode
    per episode, in the same order, and each has the method, the target, the
    headers, the form and the status code of its episode unchanged; only the
    two bodies change representation, to a string of the same bytes when
    [IsText] holds of their headers and to the bytes themselves otherwise. *)
Theorem writeableEpisodes_keeps_fields (es : list Episode) (ws : list WriteableEpisode) :
  writeableEpisodes es = Ok ws →
  Forall2 (λ e w,
             wq_Method (w_Request w) = rr_Method (Request e) ∧
             wq_URL (w_Request w) = rr_URL (Request e) ∧
             wq_Header (w_Request w) = rr_Header (Request e) ∧
             wq_Form (w_Request w) = rr_Form (Request e) ∧
             ws_StatusCode (w_Response w) = rs_StatusCode (Response e) ∧
             ws_Header (w_Response w) = rs_Header (Response e) ∧
             written_as (rr_Header (Request e)) (rr_Body (Request e))
                        (wq_Body (w_Request w)) ∧
             written_as (rs_Header (Response e)) (rs_Body (Response e))
                        (ws_Body (w_Response w)))
          es ws.
Proof.
  unfold writeableEpisodes. revert ws.
  induction es as [|e es IH]; intros ws; simpl.
  - intros [= <-]. constructor.
  - destruct (writeableEpisode e) as [w|] eqn:Hw; [|done]. simpl.
    destruct (rmap writeableEpisode es) as [ws'|] eqn:Hws; [|done]. simpl.
    intros [= <-]. constructor; [by apply writeableEpisode_keeps|by apply IH].
Qed.

Lemma writeableEpisodes_keeps_fields_witness :
  length (Episodes Scenario.mixed_config) = length Tray.mixed_writeable ∧
  (ws_Body ∘ w_Response) <$> Tray.mixed_writeable
  = [IString "[1, 2, 3]"; IBytes (Slice [x89; x50; x4e; x47; x00; xff])].
Proof.
  split; [|by vm_compute].
  eapply Forall2_length.
  apply (writeableEpisodes_keeps_fields (Episodes Scenario.mixed_config)
           Tray.mixed_writeable).
  by vm_compute.
Defined.

Lemma append_String (c : ascii) (a b : string) :
  String c a +:+ b = String c (a +:+ b).
Proof. reflexivity. Qed.

Lemma prefix_split (p s : string) :
  String.prefix p s = true ↔ ∃ post, s = p +:+ post.
Proof.
  revert s. induction p as [|a p IH]; intros s.
  - destruct s; (split; [intros _; by eexists|done]).
  - destruct s as [|b s]; simpl; [split; [done|by intros [post [=]]]|].
    destruct (ascii_dec a b) as [->|Hab].
    + rewrite IH. split; intros [post Hpost]; exists post.
      * by rewrite append_String, Hpost.
      * rewrite append_String in Hpost. congruence.
    + split; [done|]. intros [post Hpost].
      rewrite append_String in Hpost. congruence.
Qed.

Lemma contains_unfold (sub s : string) :
  contains sub s
  = String.prefix sub s ||
    match s with
    | EmptyString => false
    | String _ s' => contains sub s'
    end.
Proof. by destruct s. Qed.

Lemma contains_split (sub s : string) :
  contains sub s = true ↔ ∃ pre post, s = pre +:+ sub +:+ post.
Proof.
  induction s as [|c s IH]; rewrite contains_unfold.
  - rewrite orb_false_r, prefix_split. split.
    + intros [post Hpost]. by exists "", post.
    + intros (pre & post & Hs). destruct pre; [by exists post|discriminate].
  - rewrite orb_true_iff, prefix_split, IH. split.
    + intros [[post Hpost]|(pre & post & Hs)].
      * by exists "", post.
      * exists (String c pre), post. by rewrite append_String, Hs.
    + intros ([|c' pre] & post & Hs).
      * left. by exists post.
      * right. rewrite append_String in Hs. injection Hs as _ Hs.
        by exists pre, post.
Qed.

(** X21.  [IsText] holds exactly when the header map has a first value
    under the key [Content-Type], spelled so, and that value begins with
    [text/] or has [json] anywhere in it; no other header and no further
    value has a say. *)
Theorem IsText_decides (headers : Header) :
  (IsText headers = Ok true ↔
   ∃ first rest,
     headers !! "Content-Type" = Some (first :: rest) ∧
     ((∃ post, first = "text/" +:+ post) ∨
      (∃ pre post, first = pre +:+ "json" +:+ post))) ∧
  (∀ key vs, key ≠ "Content-Type" →
     IsText (<[key := vs]> headers) = IsText headers) ∧
  (∀ first rest rest',
     IsText (<["Content-Type" := first :: rest]> headers)
     = IsText (<["Content-Type" := first :: rest']> headers)).
Proof.
  split_and!.
  - unfold IsText, matches_text.
    destruct (headers !! "Content-Type") as [[|first rest]|] eqn:Hct.
    + split; [done|]. by intros (? & ? & [=] & _).
    + split.
      * intros [= Hm]. exists first, rest. split; [done|].
        apply orb_true_iff in Hm as [Hp|Hc].
        -- left. by apply prefix_split.
        -- right. by apply contains_split.
      * intros (f & rs & [= <- <-] & Hcase). f_equal. apply orb_true_iff.
        destruct Hcase as [Hp|Hc].
        -- left. by apply prefix_split.
        -- right. by apply contains_split.
    + split; [done|]. by intros (? & ? & [=] & _).
  - intros key vs Hkey. unfold IsText. by rewrite lookup_insert_ne.
  - intros first rest rest'. unfold IsText. by rewrite !lookup_insert_eq.
Qed.

(** X22.  A POST to the control endpoint that names a cassette loads what
    [Save] last wrote for that cassette in that directory: when the saved
    episodes are such that a cassette file carries them unchanged (their
    strings and text bodies are valid UTF-8, no body is the nil slice and
    no target has a user name or a password), they are the episodes in
    memory after the POST, and the POST is answered without error. *)
Theorem POST_loads_saved_cassette proxy (saved config : Config) fs0 fs r :
  Cassette saved ≠ "" →
  forallb Clean.episode (Episodes saved) = true →
  Save saved fs0 = Ok (fs, None) →
  control r → Method r = "POST" →
  Cassette (ConfigJSON.Decode (JsonBody r) config) = Cassette saved →
  CassetteDir (ConfigJSON.Decode (JsonBody r) config) = CassetteDir saved →
  Proxy proxy config fs r
  = mkOutcome [] []
      (set_Episodes (ConfigJSON.Decode (JsonBody r) config) (Episodes saved))
      fs None.
Proof.
  intros Hname Hclean Hsave Hpath Hpost Hcas Hdir.
  rewrite Proxy_POST_outcome by done.
  apply Save_written in Hsave as (ws & Hws & Hfile).
  assert (Hsame : CassetteFile (ConfigJSON.Decode (JsonBody r) config)
                  = CassetteFile saved).
  { unfold CassetteFile. by rewrite Hcas, Hdir. }
  rewrite (Load_decoded _ fs (MarshalIndent ws) (Episodes saved)).
  - done.
  - by rewrite Hcas.
  - by rewrite Hsame.
  - by apply episodes_read_back.
Qed.

Lemma POST_loads_saved_cassette_witness :
  Proxy Scenario.unreachable Tray.empty Tray.recorded_disk
        (Scenario.control_request "POST" Tray.insert_a)
  = mkOutcome [] []
      (set_Episodes (ConfigJSON.Decode Tray.insert_a Tray.empty)
                    [Tray.first_episode])
      Tray.recorded_disk None.
Proof.
  apply (POST_loads_saved_cassette Scenario.unreachable Tray.recorded_once
           Tray.empty Scenario.disk Tray.recorded_disk
           (Scenario.control_request "POST" Tray.insert_a)); by vm_compute.
Defined.

End StoreMore.
